(** * nanobot: the agent loop and the browser relay

    A shallow embedding of [nanobot/agent/loop.py] and
    [nanobot/agent/tools/browser.py].

    Python values are modelled as follows: [str] as [string] (one character
    of the model stands for one character of the Python string, so that
    [len] and slicing count characters), [int] as [Z], [dict] as [gmap],
    [None]-or-value as [option], and a raised exception as the [Raise]
    branch of [result]. *)

From Stdlib Require Import ZArith Lia Ascii String List.
From stdpp Require Import gmap strings pretty list.

Local Open Scope string_scope.
Local Open Scope list_scope.

(** ** Python preliminaries *)

Module Py.

(** The exception classes the two modules raise, catch or let through. *)
Inductive exn_class :=
| RuntimeError
| TimeoutError
| ConnectionClosed
| OSError
| AttributeError
| TypeError
| UnboundLocalError
| OtherException.

(** An exception object: its class and [str(e)]. *)
Record pyexn := PyExn { exn_cls : exn_class; exn_str : string }.

Inductive result (A : Type) :=
| Ok (a : A)
| Raise (e : pyexn).
Arguments Ok {A} a.
Arguments Raise {A} e.

(** Truth value of a [str]: non-empty. *)
Definition str_truthy (s : string) : bool :=
  match s with EmptyString => false | String _ _ => true end.

(** [s.startswith(p)] *)
Definition startswith (s p : string) : bool := String.prefix p s.

(** [s[:n]] *)
Definition slice_to (n : nat) (s : string) : string := substring 0 n s.

(** The part of [s] before the first [sep] and the part after it, when
    [sep] occurs in [s]. *)
Fixpoint partition (sep : ascii) (s : string) : option (string * string) :=
  match s with
  | EmptyString => None
  | String c rest =>
      if Ascii.eqb c sep then Some (EmptyString, rest)
      else match partition sep rest with
           | Some (a, b) => Some (String c a, b)
           | None => None
           end
  end.

(** [s.split(sep, maxsplit)] for a one-character separator: at most
    [maxsplit] cuts, made at the leftmost occurrences. *)
Fixpoint split (sep : ascii) (maxsplit : nat) (s : string) : list string :=
  match maxsplit with
  | O => [s]
  | S k =>
      match partition sep s with
      | None => [s]
      | Some (a, b) => a :: split sep k b
      end
  end.

(** [sep.join(parts)] *)
Fixpoint join (sep : string) (parts : list string) : string :=
  match parts with
  | [] => EmptyString
  | [p] => p
  | p :: rest => p +:+ sep +:+ join sep rest
  end.

(** Number of occurrences of a character. *)
Fixpoint count_char (c : ascii) (s : string) : nat :=
  match s with
  | EmptyString => 0
  | String d rest => (if Ascii.eqb d c then 1 else 0) + count_char c rest
  end.

(** [needle in s] for two strings. *)
Fixpoint str_contains (needle s : string) : bool :=
  String.prefix needle s ||
  match s with
  | EmptyString => false
  | String _ rest => str_contains needle rest
  end.

(** [s.replace(old, new)] for a non-empty [old]: the occurrences are
    replaced left to right without overlap; [skip] counts the characters
    of a matched occurrence still to be dropped. *)
Fixpoint replace_from (old new : string) (skip : nat) (s : string) : string :=
  match s with
  | EmptyString => EmptyString
  | String c rest =>
      match skip with
      | S k => replace_from old new k rest
      | O =>
          if String.prefix old s
          then new +:+ replace_from old new (String.length old - 1) rest
          else String c (replace_from old new 0 rest)
      end
  end.

Definition replace (old new s : string) : string := replace_from old new 0 s.

(** [c.isspace()] for the characters of the model. *)
Definition isspace (c : ascii) : bool :=
  let n := nat_of_ascii c in
  ((9 <=? n)%nat && (n <=? 13)%nat) || ((28 <=? n)%nat && (n <=? 32)%nat)
  || (n =? 133)%nat || (n =? 160)%nat.

Fixpoint lstrip (s : string) : string :=
  match s with
  | EmptyString => EmptyString
  | String c rest => if isspace c then lstrip rest else s
  end.

Fixpoint rstrip (s : string) : string :=
  match s with
  | EmptyString => EmptyString
  | String c rest =>
      match rstrip rest with
      | EmptyString => if isspace c then EmptyString else String c EmptyString
      | r => String c r
      end
  end.

(** [s.strip()] *)
Definition strip (s : string) : string := rstrip (lstrip s).

End Py.

Import Py.


(** ** The agent loop ([nanobot/agent/loop.py]) *)

Module Loop.

(** What the loop does not own: the state of the provider and of the
    registered tools ([World]), the argument map of a tool call, and the
    transcript entries written by [ContextBuilder]. *)
Class Domain := {
  World : Type;
  Args : Type;
  CtxEntry : Type
}.

Record InboundMessage := {
  channel : string;
  sender_id : string;
  chat_id : string;
  session_key : string;
  content : string;
  media : list string
}.

(** [content] is [None] when the loop hands over the unset [final_content]. *)
Record OutboundMessage := {
  out_channel : string;
  out_chat_id : string;
  out_content : option string;
  out_media : list string
}.

(** Modelled from the spec: [Session] (nanobot/session/manager.py is not
    among the sources). A session is the ordered sequence of its turns; a
    turn has a role, a content and the optional media it was added with
    (its timestamp is left out). *)
Record Turn := {
  role : string;
  turn_content : string;
  turn_media : option (list string)
}.

(** Modelled from the spec: [SessionManager.get_or_create], one session
    per key, created empty on first use. *)
Definition get_or_create (key : string) (ss : gmap string (list Turn))
  : gmap string (list Turn) :=
  match ss !! key with
  | Some _ => ss
  | None => <[key := []]> ss
  end.

(** Modelled from the spec: [Session.add_message], on the session object
    the manager holds for [key]. *)
Definition add_message (key : string) (t : Turn) (ss : gmap string (list Turn))
  : gmap string (list Turn) :=
  <[key := default [] (ss !! key) ++ [t]]> ss.

Section Transcript.
Context `{Domain}.

Record ToolCall := {
  tc_id : string;
  tc_name : string;
  tc_arguments : Args
}.

(** The provider's reply: [response.content] may be [None]. *)
Record LLMResponse := {
  resp_content : option string;
  resp_tool_calls : list ToolCall
}.

(** An entry of the [tool_calls] list put on an assistant message;
    [tcj_arguments] is [json.dumps(tc.arguments)]. *)
Record ToolCallJson := {
  tcj_id : string;
  tcj_name : string;
  tcj_arguments : string
}.

(** The working transcript [messages]. An assistant entry has the key
    [tool_calls] only when the reply had tool calls. *)
Inductive ChatMsg :=
| FromContext (e : CtxEntry)
| Assistant (text : string) (calls : option (list ToolCallJson))
| ToolResult (tool_call_id : string) (text : string).

End Transcript.

(** The collaborators the loop calls. [chat] is [provider.chat] applied to
    the transcript and the registry's current tool definitions;
    [tools_execute] is [ToolRegistry.execute]; [set_tool_contexts] is
    lines 160-166, [set_context] on the message tool and on the spawn
    tool. *)
Class Collaborators `{Domain} := {
  chat : World -> list ChatMsg -> World * result LLMResponse;
  tools_execute : World -> string -> Args -> World * result string;
  set_tool_contexts : World -> string -> string -> World;
  get_history : list Turn -> list CtxEntry;
  build_messages : list CtxEntry -> string -> option (list string) -> list ChatMsg;
  json_dumps : Args -> string
}.

Section AgentLoop.
Context `{Collaborators}.

(** [self]: the configured turn budget, the collaborators' state and
    the session manager. *)
Record AgentLoop := {
  max_iterations : Z;
  world : World;
  sessions : gmap string (list Turn)
}.

(** Line 41: the turn budget when none is configured. *)
Definition default_max_iterations : Z := 10.

(** The local variables of [_process_message] that live across the
    loop. [tool_calls] is [None] while the name is unbound. *)
Record Locals := {
  iteration : Z;
  final_content : option string;
  tool_calls : option (list ToolCall);
  media_from_tool_results : list string;
  messages : list ChatMsg
}.

Definition fallback_text : string := "I'm not sure how to respond to that.".

Definition screenshot_marker : string := "Screenshot saved to ".

Definition to_json (tc : ToolCall) : ToolCallJson :=
  {| tcj_id := tc_id tc; tcj_name := tc_name tc;
     tcj_arguments := json_dumps (tc_arguments tc) |}.

(** Lines 218-244: the tool calls of one reply, in order. *)
Fixpoint execute_tools (w : World) (tcs : list ToolCall)
    (msgs : list ChatMsg) (paths : list string)
  : World * list ChatMsg * list string :=
  match tcs with
  | [] => (w, msgs, paths)
  | tc :: rest =>
      let '(w', r) := tools_execute w (tc_name tc) (tc_arguments tc) in
      let '(text, paths') :=
        match r with
        | Ok res =>
            if String.eqb (tc_name tc) "browser_use"
               && startswith res screenshot_marker
            then (res, paths ++ [strip (replace screenshot_marker "" res)])
            else (res, paths)
        | Raise e => ("Error: " +:+ exn_str e, paths)
        end in
      execute_tools w' rest (msgs ++ [ToolResult (tc_id tc) text]) paths'
  end.

(** Lines 180-244: the [while] loop. [calls] counts the calls of
    [provider.chat] made so far. The loop body runs at most once per
    unit of [fuel]; [None] means the fuel ran out. *)
Fixpoint agent_loop (fuel : nat) (bound : Z) (w : World) (l : Locals)
    (calls : nat) : option (World * Locals * nat) :=
  if (iteration l <? bound)%Z then
    match fuel with
    | O => None
    | S fuel' =>
        let it := (iteration l + 1)%Z in
        match chat w (messages l) with
        | (w', Raise e) =>
            Some (w',
                  {| iteration := it;
                     final_content := Some ("Error calling LLM: " +:+ exn_str e);
                     tool_calls := tool_calls l;
                     media_from_tool_results := media_from_tool_results l;
                     messages := messages l |},
                  S calls)
        | (w', Ok response) =>
            let response_text := default "" (resp_content response) in
            let tcs := resp_tool_calls response in
            match tcs with
            | [] =>
                Some (w',
                      {| iteration := it;
                         final_content := Some response_text;
                         tool_calls := Some tcs;
                         media_from_tool_results := media_from_tool_results l;
                         messages := messages l ++ [Assistant response_text None] |},
                      S calls)
            | _ :: _ =>
                let msgs := messages l
                              ++ [Assistant response_text (Some (map to_json tcs))] in
                let '(w'', msgs', paths) :=
                  execute_tools w' tcs msgs (media_from_tool_results l) in
                agent_loop fuel' bound w''
                  {| iteration := it;
                     final_content := final_content l;
                     tool_calls := Some tcs;
                     media_from_tool_results := paths;
                     messages := msgs' |}
                  (S calls)
            end
        end
    end
  else Some (w, l, calls).

(** Truth value of [final_content]: [None] and the empty string are
    false. *)
Definition truthy (v : option string) : bool :=
  match v with
  | Some s => str_truthy s
  | None => false
  end.

(** Lines 251 and 253: the turn saved for the message, and the turn saved
    for an answer. *)
Definition user_turn (msg : InboundMessage) : Turn :=
  {| role := "user"; turn_content := content msg;
     turn_media := Some (media msg) |}.

Definition assistant_turn (text : string) : Turn :=
  {| role := "assistant"; turn_content := text; turn_media := None |}.

(** Lines 271-291. *)
Definition _process_system_message (msg : InboundMessage)
  : result (option OutboundMessage) :=
  match split ":" 2 (content msg) with
  | [origin_channel; origin_chat_id; res] =>
      Ok (Some {| out_channel := origin_channel;
                  out_chat_id := origin_chat_id;
                  out_content :=
                    Some ("Subagent task completed:" +:+ String "010" res);
                  out_media := [] |})
  | _ => Ok None
  end.

(** What one call of [_process_message] leaves behind: the loop object,
    the number of provider calls it made, the locals at the end of the
    [while] loop, and what it returned or raised. *)
Record Processed := {
  self_after : AgentLoop;
  model_calls : nat;
  locals_after : option Locals;
  returned : result (option OutboundMessage)
}.

Definition initial_locals (self : AgentLoop) (msg : InboundMessage) : Locals :=
  {| iteration := 0;
     final_content := None;
     tool_calls := None;
     media_from_tool_results := [];
     messages :=
       build_messages
         (get_history (default [] (get_or_create (session_key msg) (sessions self)
                                     !! session_key msg)))
         (content msg)
         (match media msg with [] => None | m => Some m end) |}.

(** Lines 139-269. [None] only if the loop ran out of fuel. *)
Definition _process_message (self : AgentLoop) (msg : InboundMessage)
  : option Processed :=
  if String.eqb (channel msg) "system" then
    Some {| self_after := self; model_calls := 0; locals_after := None;
            returned := _process_system_message msg |}
  else
    let ss := get_or_create (session_key msg) (sessions self) in
    let w := set_tool_contexts (world self) (channel msg) (chat_id msg) in
    match agent_loop (Z.to_nat (max_iterations self)) (max_iterations self)
            w (initial_locals self msg) 0 with
    | None => None
    | Some (w', l, calls) =>
        let ss1 :=
          add_message (session_key msg)
            {| role := "user"; turn_content := content msg;
               turn_media := Some (media msg) |} ss in
        let ss2 :=
          match final_content l with
          | Some text =>
              if str_truthy text
              then add_message (session_key msg)
                     {| role := "assistant"; turn_content := text;
                        turn_media := None |} ss1
              else ss1
          | None => ss1
          end in
        let self' := {| max_iterations := max_iterations self;
                        world := w'; sessions := ss2 |} in
        let reply text :=
          Ok (Some {| out_channel := channel msg; out_chat_id := chat_id msg;
                      out_content := text;
                      out_media := media_from_tool_results l |}) in
        Some {| self_after := self'; model_calls := calls;
                locals_after := Some l;
                returned :=
                  if truthy (final_content l) then reply (final_content l)
                  else match tool_calls l with
                       | None =>
                           Raise (PyExn UnboundLocalError
                                        "local variable 'tool_calls' referenced before assignment")
                       | Some [] => reply (Some fallback_text)
                       | Some (_ :: _) => reply (final_content l)
                       end |}
    end.

(** The first call of the provider for a message. *)
Definition first_reply (self : AgentLoop) (msg : InboundMessage)
  : World * result LLMResponse :=
  chat (set_tool_contexts (world self) (channel msg) (chat_id msg))
       (messages (initial_locals self msg)).

(** *** [run]

    Modelled from the spec: [MessageBus.publish_outbound]
    (nanobot/bus/queue.py is not among the sources), an append to a FIFO
    queue. The list here is not the queue of the bus: it is the record of
    the calls of [publish_outbound] that [run] makes itself, at lines 122
    and 126, in their order. The message tool holds the same callback
    (line 90), so a tool run during [_process_message] may put messages of
    its own on the bus; those are effects of [tools_execute] on the world
    and are not in this list. *)
Definition publish_outbound (m : OutboundMessage)
    (published : list OutboundMessage) : list OutboundMessage :=
  published ++ [m].

(** Line 113: what the wait of at most one second on [consume_inbound]
    gives. *)
Inductive dequeued :=
| TimedOut
| Dequeued (msg : InboundMessage).

(** Lines 126-130: the answer to a message whose processing raised. *)
Definition error_response (msg : InboundMessage) (e : pyexn) : OutboundMessage :=
  {| out_channel := channel msg; out_chat_id := chat_id msg;
     out_content := Some ("Sorry, I encountered an error: " +:+ exn_str e);
     out_media := [] |}.

(** Lines 111-132: one turn of the [while] of [run], with the record of
    what [run] has published itself so far. An [OutboundMessage] is an
    object without [__bool__] or [__len__], so [if response] asks whether
    it is [None]. [None] only if the loop of [_process_message] ran out of
    fuel. *)
Definition run_iteration (d : dequeued) (self : AgentLoop)
    (published : list OutboundMessage)
  : option (AgentLoop * list OutboundMessage) :=
  match d with
  | TimedOut => Some (self, published)
  | Dequeued msg =>
      match _process_message self msg with
      | None => None
      | Some p =>
          Some (self_after p,
                match returned p with
                | Ok (Some response) => publish_outbound response published
                | Ok None => published
                | Raise e => publish_outbound (error_response msg e) published
                end)
      end
  end.

(** What happens at the loop, in order: a wait on the bus ends, or [stop]
    is called. *)
Inductive bus_event :=
| Wait (d : dequeued)
| StopCalled.

(** Lines 110-132: the [while self._running] of [run], on the events up to
    some point, with the record of what [run] has published itself; after
    [stop] no turn is begun. (Lines 102-108, which start the relay of the
    browser tool, act on the world before the loop.) *)
Fixpoint run_loop (evs : list bus_event) (self : AgentLoop)
    (published : list OutboundMessage)
  : option (AgentLoop * list OutboundMessage) :=
  match evs with
  | [] => Some (self, published)
  | StopCalled :: _ => Some (self, published)
  | Wait d :: rest =>
      match run_iteration d self published with
      | Some (self', published') => run_loop rest self' published'
      | None => None
      end
  end.

(** The messages the events hand to the loop before [stop]. *)
Fixpoint dequeued_messages (evs : list bus_event) : list InboundMessage :=
  match evs with
  | [] => []
  | StopCalled :: _ => []
  | Wait TimedOut :: rest => dequeued_messages rest
  | Wait (Dequeued msg) :: rest => msg :: dequeued_messages rest
  end.

(** The tool call is one to the browser tool. *)
Definition is_browser_call (tc : ToolCall) : bool :=
  String.eqb (tc_name tc) "browser_use".

End AgentLoop.

End Loop.

(** ** The browser relay and tool ([nanobot/agent/tools/browser.py]) *)

Module Browser.

(** A value decoded by [json.loads] or handed to [json.dumps]. JSON
    numbers with a fraction or an exponent are not modelled. *)
#[local] Set Warnings "-register-all".
Inductive json :=
| JNull
| JBool (b : bool)
| JInt (n : Z)
| JStr (s : string)
| JList (l : list json)
| JObj (m : gmap string json).

(** [repr] of a list or dict (Python's quoting and ordering rules are
    not spelled out). *)
Class PyRepr := { repr : json -> string }.

Definition type_name (v : json) : string :=
  match v with
  | JNull => "NoneType"
  | JBool _ => "bool"
  | JInt _ => "int"
  | JStr _ => "str"
  | JList _ => "list"
  | JObj _ => "dict"
  end.

(** [bool(v)] *)
Definition py_truthy (v : json) : bool :=
  match v with
  | JNull => false
  | JBool b => b
  | JInt n => negb (n =? 0)%Z
  | JStr s => str_truthy s
  | JList l => match l with [] => false | _ => true end
  | JObj m => negb (bool_decide (m = ∅))
  end.

(** [str(v)], also what an f-string puts for [{v}]. *)
Definition py_str `{PyRepr} (v : json) : string :=
  match v with
  | JNull => "None"
  | JBool true => "True"
  | JBool false => "False"
  | JInt n => pretty n
  | JStr s => s
  | JList _ | JObj _ => repr v
  end.

(** [v == k] for a str [k]. *)
Definition eq_str (k : string) (v : json) : bool :=
  match v with
  | JStr s => String.eqb s k
  | _ => false
  end.

(** [k in v] for a str [k]. *)
Definition py_in (k : string) (v : json) : result bool :=
  match v with
  | JObj m => Ok (bool_decide (is_Some (m !! k)))
  | JList l => Ok (existsb (eq_str k) l)
  | JStr s => Ok (str_contains k s)
  | _ => Raise (PyExn TypeError
                  ("argument of type '" +:+ type_name v +:+ "' is not iterable"))
  end.

(** [v[k]] for a str [k]. *)
Definition py_getitem (v : json) (k : string) : result json :=
  match v with
  | JObj m =>
      match m !! k with
      | Some x => Ok x
      | None => Raise (PyExn OtherException ("'" +:+ k +:+ "'"))
      end
  | JList _ =>
      Raise (PyExn TypeError "list indices must be integers or slices, not str")
  | JStr _ => Raise (PyExn TypeError "string indices must be integers")
  | _ => Raise (PyExn TypeError
                  ("'" +:+ type_name v +:+ "' object is not subscriptable"))
  end.

(** [v.get(k, d)] *)
Definition py_get (v : json) (k : string) (d : json) : result json :=
  match v with
  | JObj m => Ok (default d (m !! k))
  | _ => Raise (PyExn AttributeError
                  ("'" +:+ type_name v +:+ "' object has no attribute 'get'"))
  end.

(** The key a decoded value denotes in a dict with [int] keys: [True] and
    [False] hash and compare as 1 and 0, [None] and strings are keys that
    are never present, lists and dicts are unhashable. *)
Definition int_key (v : json) : result (option Z) :=
  match v with
  | JInt n => Ok (Some n)
  | JBool b => Ok (Some (if b then 1 else 0)%Z)
  | JNull | JStr _ => Ok None
  | JList _ | JObj _ =>
      Raise (PyExn TypeError ("unhashable type: '" +:+ type_name v +:+ "'"))
  end.

Definition DEFAULT_RELAY_PORT : Z := 18792.
Definition RELAY_PATH : string := "/extension".

(** An [asyncio.Future]. *)
Inductive future_state :=
| FPending
| FResult (v : json)
| FException (e : pyexn)
| FCancelled.

Definition done (f : future_state) : bool :=
  match f with FPending => false | _ => true end.

(** [self] of [BrowserRelay]. A websocket is named by a number. The
    future made for a command is named by the command's id and lives in
    [futures], where a waiting [send_command] still finds it after the
    dict entry is popped. [send_calls] lists the calls of
    [extension_ws.send], oldest first, with the websocket called. *)
Record BrowserRelay := {
  port : Z;
  server : bool;
  extension_ws : option nat;
  command_id : Z;
  pending_commands : gmap Z Z;
  _running : bool;
  futures : gmap Z future_state;
  send_calls : list (nat * json)
}.

Definition new_relay : BrowserRelay :=
  {| port := DEFAULT_RELAY_PORT; server := false; extension_ws := None;
     command_id := 0; pending_commands := ∅; _running := false;
     futures := ∅; send_calls := [] |}.

Definition with_running (b : bool) (self : BrowserRelay) : BrowserRelay :=
  {| port := port self; server := server self;
     extension_ws := extension_ws self; command_id := command_id self;
     pending_commands := pending_commands self; _running := b;
     futures := futures self; send_calls := send_calls self |}.

Definition with_server (b : bool) (self : BrowserRelay) : BrowserRelay :=
  {| port := port self; server := b;
     extension_ws := extension_ws self; command_id := command_id self;
     pending_commands := pending_commands self; _running := _running self;
     futures := futures self; send_calls := send_calls self |}.

Definition with_extension_ws (ws : option nat) (self : BrowserRelay)
  : BrowserRelay :=
  {| port := port self; server := server self;
     extension_ws := ws; command_id := command_id self;
     pending_commands := pending_commands self; _running := _running self;
     futures := futures self; send_calls := send_calls self |}.

Definition with_pending_commands (t : gmap Z Z) (self : BrowserRelay)
  : BrowserRelay :=
  {| port := port self; server := server self;
     extension_ws := extension_ws self; command_id := command_id self;
     pending_commands := t; _running := _running self;
     futures := futures self; send_calls := send_calls self |}.

Definition with_futures (fs : gmap Z future_state) (self : BrowserRelay)
  : BrowserRelay :=
  {| port := port self; server := server self;
     extension_ws := extension_ws self; command_id := command_id self;
     pending_commands := pending_commands self; _running := _running self;
     futures := fs; send_calls := send_calls self |}.

Definition with_send_call (ws : nat) (frame : json) (self : BrowserRelay)
  : BrowserRelay :=
  {| port := port self; server := server self;
     extension_ws := extension_ws self; command_id := command_id self;
     pending_commands := pending_commands self; _running := _running self;
     futures := futures self; send_calls := send_calls self ++ [(ws, frame)] |}.

(** Lines 50-71. [bind_ok] says whether [websockets.server.serve] returned
    or raised [OSError]. *)
Definition start (bind_ok : bool) (self : BrowserRelay) : BrowserRelay :=
  if _running self then self
  else if bind_ok then with_server true (with_running true self)
       else with_running false (with_running true self).

(** Lines 73-78. *)
Definition stop (self : BrowserRelay) : BrowserRelay := with_running false self.

(** Lines 82-87, the start of [_handle_connection]. *)
Definition connection_opened (ws : nat) (path : string) (self : BrowserRelay)
  : BrowserRelay :=
  if negb (String.eqb path RELAY_PATH) then self
  else with_extension_ws (Some ws) self.

(** Lines 94-96, the [finally] of [_handle_connection]. *)
Definition connection_closed (ws : nat) (self : BrowserRelay) : BrowserRelay :=
  if bool_decide (extension_ws self = Some ws)
  then with_extension_ws None self
  else self.

Definition pong : json := JObj {[ "method" := JStr "pong" ]}.

(** [future.set_result] or [future.set_exception], under the guard
    [if not future.done()] of line 108. *)
Definition resolve (fut : Z) (outcome : future_state) (self : BrowserRelay)
  : BrowserRelay :=
  match futures self !! fut with
  | Some f => if done f then self
              else with_futures (<[fut := outcome]> (futures self)) self
  | None => self
  end.

Section Relay.
Context `{PyRepr}.

(** The [try] body of [_handle_message] for a decoded [data]. *)
Definition handle_data (data : json) (self : BrowserRelay)
  : BrowserRelay * result unit :=
  match py_in "id" data with
  | Raise e => (self, Raise e)
  | Ok has_id =>
  match (if has_id
         then match py_in "result" data with
              | Ok true => Ok true
              | Ok false => py_in "error" data
              | Raise e => Raise e
              end
         else Ok false) with
  | Raise e => (self, Raise e)
  | Ok true =>
      match py_getitem data "id" with
      | Raise e => (self, Raise e)
      | Ok cmd_id =>
          match int_key cmd_id with
          | Raise e => (self, Raise e)
          | Ok None => (self, Ok tt)
          | Ok (Some c) =>
              match pending_commands self !! c with
              | None => (self, Ok tt)
              | Some fut =>
                  let self1 :=
                    with_pending_commands (delete c (pending_commands self)) self in
                  match py_in "error" data with
                  | Raise e => (self1, Raise e)
                  | Ok true =>
                      match py_getitem data "error" with
                      | Raise e => (self1, Raise e)
                      | Ok err =>
                          (resolve fut
                             (FException (PyExn OtherException (py_str err)))
                             self1, Ok tt)
                      end
                  | Ok false =>
                      match py_get data "result" JNull with
                      | Raise e => (self1, Raise e)
                      | Ok v => (resolve fut (FResult v) self1, Ok tt)
                      end
                  end
              end
          end
      end
  | Ok false =>
      match py_get data "method" JNull with
      | Raise e => (self, Raise e)
      | Ok m =>
          if eq_str "ping" m then
            match extension_ws self with
            | None =>
                (self, Raise (PyExn AttributeError
                                "'NoneType' object has no attribute 'send'"))
            | Some ws => (with_send_call ws pong self, Ok tt)
            end
          else (self, Ok tt)
      end
  end
  end.

(** Lines 98-119. [message] is [None] when [json.loads] raises. Whatever
    the body raises is logged and dropped. *)
Definition _handle_message (message : option json) (self : BrowserRelay)
  : BrowserRelay :=
  match message with
  | None => self
  | Some data => fst (handle_data data self)
  end.

(** Line 139: the forwarding envelope. [params or {}]. *)
Definition payload (cmd_id : Z) (method : string) (params : json) : json :=
  JObj {[ "id" := JInt cmd_id;
          "method" := JStr "forwardCDPCommand";
          "params" := JObj {[ "method" := JStr method;
                              "params" := if py_truthy params then params
                                          else JObj ∅ ]} ]}.

Definition not_connected : pyexn :=
  PyExn RuntimeError
    "Browser extension not connected. Please install the OpenClaw Browser Relay extension.".

(** Lines 123-151: [send_command] up to the point where it starts to
    wait. [send_raises] is the exception [extension_ws.send] raises, if
    it does. The result is the id whose future the call then awaits. *)
Definition send_command_begin (method : string) (params : json)
    (send_raises : option pyexn) (self : BrowserRelay)
  : BrowserRelay * result Z :=
  match extension_ws self with
  | None => (self, Raise not_connected)
  | Some ws =>
      let cmd_id := (command_id self + 1)%Z in
      let self1 :=
        {| port := port self; server := server self;
           extension_ws := extension_ws self; command_id := cmd_id;
           pending_commands := <[cmd_id := cmd_id]> (pending_commands self);
           _running := _running self;
           futures := <[cmd_id := FPending]> (futures self);
           send_calls := send_calls self |} in
      let self2 := with_send_call ws (payload cmd_id method params) self1 in
      match send_raises with
      | Some e => (self2, Raise e)
      | None => (self2, Ok cmd_id)
      end
  end.

(** The frames among the calls of [send] that are command envelopes: those
    with an [id]. *)
Definition is_command (call : nat * json) : bool :=
  match snd call with
  | JObj m => bool_decide (is_Some (m !! "id"))
  | _ => false
  end.

Definition commands_sent (self : BrowserRelay) : list (nat * json) :=
  filter (fun call => is_command call = true) (send_calls self).

(** [asyncio.wait_for] at its deadline: the future is cancelled if it
    is still pending. *)
Definition wait_for_expired (fut : Z) (self : BrowserRelay) : BrowserRelay :=
  resolve fut FCancelled self.

(** Lines 156-159, the [except asyncio.TimeoutError] clause. *)
Definition on_timeout (cmd_id : Z) (self : BrowserRelay)
  : BrowserRelay * result json :=
  (match pending_commands self !! cmd_id with
   | Some _ => with_pending_commands (delete cmd_id (pending_commands self)) self
   | None => self
   end,
   Raise (PyExn TimeoutError "Browser command timed out")).

(** What the peer does while a command waits. *)
Inductive peer_event :=
| Connects (ws : nat) (path : string)
| Delivers (message : option json)
| Disconnects (ws : nat).

Definition peer_step (self : BrowserRelay) (ev : peer_event) : BrowserRelay :=
  match ev with
  | Connects ws path => connection_opened ws path self
  | Delivers message => _handle_message message self
  | Disconnects ws => connection_closed ws self
  end.

(** The surroundings of one [send_command]: whether [send] raises, what
    the peer does before the future is done or the 30 seconds are over
    ([arrivals]), and what it does between the cancellation of the
    future and the [except] clause ([stragglers]). *)
Record Env := {
  send_raises : option pyexn;
  arrivals : list peer_event;
  stragglers : list peer_event
}.

(** [await asyncio.wait_for(future, timeout=30.0)]: the peer's events
    are handled until the future is done; [None] when they are used up
    first, which is the deadline. *)
Fixpoint await_future (fut : Z) (evs : list peer_event) (self : BrowserRelay)
  : BrowserRelay * option (result json) :=
  match futures self !! fut with
  | Some (FResult v) => (self, Some (Ok v))
  | Some (FException e) => (self, Some (Raise e))
  | _ =>
      match evs with
      | [] => (self, None)
      | ev :: evs' => await_future fut evs' (peer_step self ev)
      end
  end.

(** Lines 121-159. *)
Definition send_command (method : string) (params : json) (env : Env)
    (self : BrowserRelay) : BrowserRelay * result json :=
  match send_command_begin method params (send_raises env) self with
  | (self1, Raise e) => (self1, Raise e)
  | (self1, Ok cmd_id) =>
      match await_future cmd_id (arrivals env) self1 with
      | (self2, Some r) => (self2, r)
      | (self2, None) =>
          on_timeout cmd_id
            (fold_left peer_step (stragglers env)
               (wait_for_expired cmd_id self2))
      end
  end.

(** *** The relay under the scheduler

    [send_command] above follows one call to its end. Here the calls, the
    peer and the clock are interleaved freely: a [send_command] that has
    sent its frame is parked in [wait_for] ([Waiting]) until its future is
    done and it returns, or until its deadline, where [wait_for] cancels
    the future and the call goes on to its [except] clause ([Expired]). *)
Inductive wait_state :=
| Waiting
| Expired.

Record System := {
  relay : BrowserRelay;
  waiters : gmap Z wait_state
}.

Inductive event :=
| Starts (bind_ok : bool)
| Stops
| Peer (ev : peer_event)
| Calls (method : string) (params : json) (send_raises : option pyexn)
| Returns (c : Z)
| Deadline (c : Z)
| TimesOut (c : Z).

Definition initial : System := {| relay := new_relay; waiters := ∅ |}.

(** One step of the scheduler; [None] when the event cannot happen in this
    state: a connection needs a listening server, and only a waiting call
    can return or reach its deadline. *)
Definition step (s : System) (ev : event) : option System :=
  match ev with
  | Starts bind_ok =>
      Some {| relay := start bind_ok (relay s); waiters := waiters s |}
  | Stops => Some {| relay := stop (relay s); waiters := waiters s |}
  | Peer (Connects ws path) =>
      if server (relay s)
      then Some {| relay := connection_opened ws path (relay s);
                   waiters := waiters s |}
      else None
  | Peer ev => Some {| relay := peer_step (relay s) ev; waiters := waiters s |}
  | Calls method params send_raises =>
      match send_command_begin method params send_raises (relay s) with
      | (r, Ok c) => Some {| relay := r; waiters := <[c := Waiting]> (waiters s) |}
      | (r, Raise _) => Some {| relay := r; waiters := waiters s |}
      end
  | Returns c =>
      match waiters s !! c, futures (relay s) !! c with
      | Some Waiting, Some (FResult _) | Some Waiting, Some (FException _) =>
          Some {| relay := relay s; waiters := delete c (waiters s) |}
      | _, _ => None
      end
  | Deadline c =>
      match waiters s !! c with
      | Some Waiting =>
          Some {| relay := wait_for_expired c (relay s);
                  waiters := <[c := Expired]> (waiters s) |}
      | _ => None
      end
  | TimesOut c =>
      match waiters s !! c with
      | Some Expired =>
          Some {| relay := fst (on_timeout c (relay s));
                  waiters := delete c (waiters s) |}
      | _ => None
      end
  end.

Fixpoint run (s : System) (evs : list event) : option System :=
  match evs with
  | [] => Some s
  | ev :: evs' =>
      match step s ev with
      | Some s' => run s' evs'
      | None => None
      end
  end.

(** What the table, the futures and the parked calls have to do with each
    other in every state the scheduler reaches: futures exist only for ids
    handed out; an entry maps an id to that id's future, which is pending,
    or cancelled by a deadline whose [except] clause has not run yet; and a
    parked call whose future is pending has its entry. *)
Definition consistent (s : System) : Prop :=
  (forall c, is_Some (futures (relay s) !! c) -> (c <= command_id (relay s))%Z)
  /\ (forall c fut,
        pending_commands (relay s) !! c = Some fut ->
        fut = c
        /\ (futures (relay s) !! c = Some FPending
            \/ (futures (relay s) !! c = Some FCancelled
                /\ waiters s !! c = Some Expired)))
  /\ (forall c,
        waiters s !! c = Some Waiting ->
        futures (relay s) !! c = Some FPending ->
        is_Some (pending_commands (relay s) !! c)).

(** The event is a frame from the peer. *)
Definition is_delivery (ev : event) : bool :=
  match ev with
  | Peer (Delivers _) => true
  | _ => false
  end.

(** The event is not a frame that answers a command: it is a connection,
    a disconnection, a frame that does not decode, or a decoded frame that
    is not a dict with an [id]. *)
Definition no_response (ev : peer_event) : bool :=
  match ev with
  | Delivers (Some (JObj data)) => negb (bool_decide (is_Some (data !! "id")))
  | Delivers (Some _) => true
  | Delivers None => true
  | Connects _ _ => true
  | Disconnects _ => true
  end.

End Relay.

(** *** [BrowserUseTool] *)

Section Tool.
Context `{PyRepr}.

(** The surroundings of one [execute]: those of the [send_command] it
    makes, and the outcome of lines 273-281 (decoding the image and
    writing the file): the absolute path of the file written, or the
    exception raised on the way. *)
Record ToolEnv := {
  relay_env : Env;
  screenshot_file : result string
}.

(** [kwargs.get(k, d)] *)
Definition kwargs_get (kwargs : gmap string json) (k : string) (d : json)
  : json := default d (kwargs !! k).

(** [res and "exceptionDetails" in res] as a truth value. *)
Definition has_exception_details (res : json) : result bool :=
  if py_truthy res then py_in "exceptionDetails" res else Ok false.

(** [res.get("result", {}).get("value", "")] *)
Definition result_value (res : json) : result json :=
  match py_get res "result" (JObj ∅) with
  | Raise e => Raise e
  | Ok r => py_get r "value" (JStr "")
  end.

Definition nl : string := String "010" EmptyString.
Definition indent16 : string := "                ".
Definition indent20 : string := "                    ".
Definition indent24 : string := "                        ".

(** Lines 236-245, the script of the [type] action. *)
Definition type_script (selector text : json) : string :=
  nl +:+ indent20 +:+ "var el = document.querySelector('" +:+ py_str selector
     +:+ "');" +:+ nl
     +:+ indent20 +:+ "if (el) {" +:+ nl
     +:+ indent24 +:+ "el.value = '" +:+ py_str text +:+ "';" +:+ nl
     +:+ indent24 +:+ "el.dispatchEvent(new Event('input', { bubbles: true }));" +:+ nl
     +:+ indent24 +:+ "el.dispatchEvent(new Event('change', { bubbles: true }));" +:+ nl
     +:+ indent20 +:+ "} else {" +:+ nl
     +:+ indent24 +:+ "throw new Error('Element not found');" +:+ nl
     +:+ indent20 +:+ "}" +:+ nl
     +:+ indent16.

(** The url [navigate] sends for the argument [url]. *)
Definition navigate_url (url : string) : string :=
  if startswith url "http" then url else "https://" +:+ url.

(** Lines 254-259: the expression [read] evaluates for a selector, and the
    parameters of its command. *)
Definition read_script (selector : json) : string :=
  if eq_str "body" selector then "document.body.innerText"
  else "document.querySelector('" +:+ py_str selector +:+ "').innerText".

Definition read_params (selector : json) : json :=
  JObj {[ "expression" := JStr (read_script selector);
          "returnByValue" := JBool true ]}.

(** The parameters of the command of [navigate]. *)
Definition navigate_params (url : string) : json :=
  JObj {[ "url" := JStr (navigate_url url) ]}.

(** Lines 224-226, 247-249, 260-261 and 290-291: the check of the
    reply for [exceptionDetails]; [failed] words the error, [succeeded]
    continues with the reply. *)
Definition check_reply (res : json) (failed : string)
    (succeeded : result string) : result string :=
  match has_exception_details res with
  | Raise e => Raise e
  | Ok true =>
      match py_getitem res "exceptionDetails" with
      | Raise e => Raise e
      | Ok details => Ok (failed +:+ ": " +:+ py_str details)
      end
  | Ok false => succeeded
  end.

(** Lines 205-296, the body of the [try]. *)
Definition execute_body (action : string) (kwargs : gmap string json)
    (env : ToolEnv) (self : BrowserRelay) : BrowserRelay * result string :=
  if String.eqb action "navigate" then
    let url := kwargs_get kwargs "url" JNull in
    if negb (py_truthy url) then (self, Ok "Error: url is required for navigate")
    else
      match url with
      | JStr u =>
          match send_command "Page.navigate" (navigate_params u)
                  (relay_env env) self with
          | (self', Raise e) => (self', Raise e)
          | (self', Ok _) => (self', Ok ("Navigated to " +:+ navigate_url u))
          end
      | _ =>
          (self, Raise (PyExn AttributeError
                          ("'" +:+ type_name url
                               +:+ "' object has no attribute 'startswith'")))
      end
  else if String.eqb action "click" then
    let selector := kwargs_get kwargs "selector" JNull in
    if negb (py_truthy selector)
    then (self, Ok "Error: selector is required for click")
    else
      let js := "document.querySelector('" +:+ py_str selector +:+ "').click()" in
      match send_command "Runtime.evaluate" (JObj {[ "expression" := JStr js ]})
              (relay_env env) self with
      | (self', Raise e) => (self', Raise e)
      | (self', Ok res) =>
          (self', check_reply res ("Error clicking " +:+ py_str selector)
                    (Ok ("Clicked " +:+ py_str selector)))
      end
  else if String.eqb action "type" then
    let selector := kwargs_get kwargs "selector" JNull in
    let text := kwargs_get kwargs "text" JNull in
    if negb (py_truthy selector)
       || match text with JNull => true | _ => false end
    then (self, Ok "Error: selector and text are required for type")
    else
      let js := type_script selector text in
      match send_command "Runtime.evaluate" (JObj {[ "expression" := JStr js ]})
              (relay_env env) self with
      | (self', Raise e) => (self', Raise e)
      | (self', Ok res) =>
          (self', check_reply res ("Error typing in " +:+ py_str selector)
                    (Ok ("Typed '" +:+ py_str text +:+ "' into "
                           +:+ py_str selector)))
      end
  else if String.eqb action "read" then
    let selector := kwargs_get kwargs "selector" (JStr "body") in
    match send_command "Runtime.evaluate" (read_params selector)
            (relay_env env) self with
    | (self', Raise e) => (self', Raise e)
    | (self', Ok res) =>
        (self', check_reply res ("Error reading " +:+ py_str selector)
                  match result_value res with
                  | Raise e => Raise e
                  | Ok text => Ok (slice_to 2000 (py_str text))
                  end)
    end
  else if String.eqb action "screenshot" then
    match send_command "Page.captureScreenshot" (JObj {[ "format" := JStr "png" ]})
            (relay_env env) self with
    | (self', Raise e) => (self', Raise e)
    | (self', Ok res) =>
        (self',
         match py_get res "data" JNull with
         | Raise e => Raise e
         | Ok data =>
             if py_truthy data then
               match screenshot_file env with
               | Raise e => Raise e
               | Ok path => Ok ("Screenshot saved to " +:+ path)
               end
             else Ok "Failed to capture screenshot"
         end)
    end
  else if String.eqb action "evaluate" then
    let script := kwargs_get kwargs "script" JNull in
    if negb (py_truthy script)
    then (self, Ok "Error: script is required for evaluate")
    else
      match send_command "Runtime.evaluate"
              (JObj {[ "expression" := script; "returnByValue" := JBool true ]})
              (relay_env env) self with
      | (self', Raise e) => (self', Raise e)
      | (self', Ok res) =>
          (self', check_reply res "Error evaluating script"
                    match result_value res with
                    | Raise e => Raise e
                    | Ok v => Ok (py_str v)
                    end)
      end
  else (self, Ok ("Unknown action: " +:+ action)).

(** Lines 203-299: the body under [except Exception as e]. *)
Definition execute (action : string) (kwargs : gmap string json)
    (env : ToolEnv) (self : BrowserRelay) : BrowserRelay * result string :=
  match execute_body action kwargs env self with
  | (self', Ok text) => (self', Ok text)
  | (self', Raise e) =>
      (self', Ok ("Error executing " +:+ action +:+ ": " +:+ exn_str e))
  end.

End Tool.

(** *** [HeadAwareProtocol] *)

(** How [WebSocketServerProtocol.handshake] ends: with the path of the
    request, with a [ValueError] of some text, or with another exception. *)
Inductive handshake_outcome :=
| Handshaken (path : string)
| ValueErrorRaised (text : string)
| OtherRaised (e : pyexn).

(** The transport of a connection: what was written to it, oldest first,
    and whether it was closed. *)
Record Transport := {
  written : list string;
  closed : bool
}.

Definition crlf : string := String "013" (String "010" EmptyString).

(** Line 31: the bytes written for a health check. *)
Definition health_response : string :=
  "HTTP/1.1 200 OK" +:+ crlf +:+ "Content-Length: 0" +:+ crlf +:+ crlf.

(** Lines 25-34. What the method returns or raises is again an outcome: the
    bare [raise] hands on the exception that was caught. *)
Definition handshake (super : handshake_outcome) (t : Transport)
  : Transport * handshake_outcome :=
  match super with
  | ValueErrorRaised text =>
      if str_contains "got HEAD" text
      then ({| written := written t ++ [health_response]; closed := true |},
            Handshaken "/health-check")
      else (t, super)
  | _ => (t, super)
  end.

(** Lines 60-65: a connection to the server made by [start]. The protocol
    made by [create_protocol] runs its handshake, and a handshake that
    returns a path is followed by [_handle_connection] with the websocket
    and that path. *)
Definition connection_made (ws : nat) (super : handshake_outcome)
    (t : Transport) (self : BrowserRelay) : Transport * BrowserRelay :=
  match handshake super t with
  | (t', Handshaken path) => (t', connection_opened ws path self)
  | (t', _) => (t', self)
  end.

End Browser.

(** ** The json_bot channel ([nanobot/channels/json_bot.py]) *)

Module JsonBot.
Import Loop Browser.

(** The fields of [JsonBotConfig] the channel reads; [reply_port] is its
    [port]. *)
Record JsonBotConfig := {
  host : string;
  reply_port : Z;
  listen_port : Z
}.

(** One [client.post(url, json=payload, timeout=...)]; the timeout is in
    seconds. *)
Record Post := {
  post_url : string;
  post_json : json;
  post_timeout : Z
}.

(** The HTTP client as the channel sees it: the posts made so far, oldest
    first, and for each post still to come whether it raises (a refused
    connection, a timeout, or [raise_for_status] on the response). *)
Record Http := {
  posts : list Post;
  failures : list (option pyexn)
}.

Definition post (p : Post) (h : Http) : Http * result unit :=
  ({| posts := posts h ++ [p]; failures := tl (failures h) |},
   match failures h with
   | Some e :: _ => Raise e
   | _ => Ok tt
   end).

(** Line 102. *)
Definition reply_url (cfg : JsonBotConfig) : string :=
  "http://" +:+ host cfg +:+ ":" +:+ pretty (reply_port cfg) +:+ "/reply".

(** Lines 106-110 and 122-126. *)
Definition payload_of (chat : string) (text : string) (kind : string) : json :=
  JObj {[ "session_name" := JStr chat; "content" := JStr text;
          "type" := JStr kind ]}.

Definition text_post (cfg : JsonBotConfig) (chat text : string) : Post :=
  {| post_url := reply_url cfg; post_json := payload_of chat text "text";
     post_timeout := 10 |}.

Definition file_post (cfg : JsonBotConfig) (chat item : string) : Post :=
  {| post_url := reply_url cfg; post_json := payload_of chat item "file";
     post_timeout := 60 |}.

(** Lines 112-117 and 128-134: a post under its [try]; what it raises is
    logged and dropped. *)
Definition post_logged (p : Post) (h : Http) : Http :=
  match post p h with
  | (h', Ok _) => h'
  | (h', Raise _) => h'
  end.

(** Lines 100-134. *)
Definition send (cfg : JsonBotConfig) (msg : OutboundMessage) (h : Http) : Http :=
  let h1 :=
    match out_content msg with
    | Some text =>
        if str_truthy text
        then post_logged (text_post cfg (out_chat_id msg) text) h
        else h
    | None => h
    end in
  fold_left (fun h item => post_logged (file_post cfg (out_chat_id msg) item) h)
    (out_media msg) h1.

(** What [do_POST] answers, and the call of [handle_webhook_message] it
    hands to the loop of the channel, if it does: sender, message, type. *)
Record WebhookReply := {
  status : Z;
  body : string;
  forwarded : option (json * json * json)
}.

(** Lines 32-45: the [try] of [do_POST] after the body was decoded. *)
Definition webhook_body (has_channel : bool) (data : json) : result WebhookReply :=
  match py_get data "message" (JStr "") with
  | Raise e => Raise e
  | Ok message =>
      match py_get data "sender" (JStr "") with
      | Raise e => Raise e
      | Ok sender =>
          match py_get data "type" (JStr "text") with
          | Raise e => Raise e
          | Ok msg_type =>
              Ok {| status := 200; body := "OK";
                    forwarded :=
                      if py_truthy message && py_truthy sender && has_channel
                      then Some (sender, message, msg_type)
                      else None |}
          end
      end
  end.

(** Lines 22-53. [decoded] is the outcome of lines 26-28: reading
    [Content-Length] bytes, decoding them and [json.loads]. [has_channel]
    says whether [WebhookHandler.channel] is set. *)
Definition do_POST (has_channel : bool) (path : string) (decoded : result json)
  : WebhookReply :=
  if startswith path "/webhook" then
    match (match decoded with
           | Raise e => Raise e
           | Ok data => webhook_body has_channel data
           end) with
    | Ok reply => reply
    | Raise _ => {| status := 500; body := ""; forwarded := None |}
    end
  else {| status := 404; body := ""; forwarded := None |}.

(** The arguments of [BaseChannel._handle_message] (nanobot/channels/base.py
    is not among the sources). *)
Record HandleCall := {
  call_sender_id : json;
  call_chat_id : json;
  call_content : json;
  call_metadata : gmap string json
}.

(** Lines 136-147. [is_allowed] is [BaseChannel.is_allowed]. The result is
    the call of [_handle_message] made, if one is. *)
Definition handle_webhook_message (is_allowed : json -> bool)
    (sender content msg_type : json) : option HandleCall :=
  if negb (is_allowed sender) then None
  else Some {| call_sender_id := sender; call_chat_id := sender;
               call_content := content;
               call_metadata := {[ "type" := msg_type ]} |}.

(** A webhook request from [do_POST] to the call of [_handle_message]: the
    coroutine that [do_POST] schedules runs on the loop of the channel. *)
Definition webhook (is_allowed : json -> bool) (has_channel : bool)
    (path : string) (decoded : result json)
  : WebhookReply * option HandleCall :=
  let reply := do_POST has_channel path decoded in
  (reply,
   match forwarded reply with
   | Some (sender, message, msg_type) =>
       handle_webhook_message is_allowed sender message msg_type
   | None => None
   end).

End JsonBot.

(** ** A scripted provider, for running the loop on concrete inputs *)

Module Scripted.
Import Loop.

(** One scripted reply: an exception, or a text and the (id, name) of each
    tool call. *)
Inductive reply :=
| Fails (e : pyexn)
| Replies (text : option string) (calls : list (string * string)).

(** The world is the script still to be played. *)
#[export] Instance domain : Domain :=
  {| World := list reply; Args := unit; CtxEntry := string |}.

Definition play (r : reply) : result LLMResponse :=
  match r with
  | Fails e => Raise e
  | Replies text calls =>
      Ok {| resp_content := text;
            resp_tool_calls :=
              map (fun c => {| tc_id := fst c; tc_name := snd c;
                               tc_arguments := tt |}) calls |}
  end.

(** The provider plays the script and fails when it is over; every tool
    returns ["ok"]; the transcript starts with the new message. *)
#[export] Instance collaborators : Collaborators :=
  {| chat := fun w _ =>
       match w with
       | [] => ([], Raise (PyExn OtherException "script is over"))
       | r :: rest => (rest, play r)
       end;
     tools_execute := fun w _ _ => (w, Ok "ok");
     set_tool_contexts := fun w _ _ => w;
     get_history := fun turns => map turn_content turns;
     build_messages := fun history current _ =>
       map FromContext history ++ [FromContext current];
     json_dumps := fun _ => "{}" |}.

Definition inbound (text : string) : InboundMessage :=
  {| channel := "cli"; sender_id := "user"; chat_id := "direct";
     session_key := "cli:direct"; content := text; media := [] |}.

Definition agent (budget : Z) (script : list reply) : AgentLoop :=
  {| max_iterations := budget; world := script; sessions := ∅ |}.

(** A system announcement with three fields, the last one with a colon of
    its own. *)
Definition announcement : InboundMessage :=
  {| channel := "system"; sender_id := "subagent"; chat_id := "chanA:42";
     session_key := "system:chanA:42"; content := "chanA:42:done: 3 files";
     media := [] |}.

(** A provider that asks for one tool on every turn. *)
Definition always_tools : list reply :=
  [ Replies None [("call_1", "read_file")];
    Replies (Some "one more") [("call_2", "read_file")];
    Replies None [("call_3", "read_file")] ].

End Scripted.

(** ** URI schemes, as the specification speaks of them *)

Module Uri.

Definition is_alpha (c : ascii) : bool :=
  let n := nat_of_ascii c in
  ((65 <=? n)%nat && (n <=? 90)%nat) || ((97 <=? n)%nat && (n <=? 122)%nat).

Definition is_digit (c : ascii) : bool :=
  let n := nat_of_ascii c in (48 <=? n)%nat && (n <=? 57)%nat.

Definition is_scheme_char (c : ascii) : bool :=
  is_alpha c || is_digit c
  || Ascii.eqb c "+" || Ascii.eqb c "-" || Ascii.eqb c ".".

Fixpoint scheme_then_colon (s : string) : bool :=
  match s with
  | EmptyString => false
  | String c rest =>
      if Ascii.eqb c ":" then true
      else is_scheme_char c && scheme_then_colon rest
  end.

(** The url starts with a scheme in the sense of RFC 3986: a letter, then
    letters, digits, [+], [-] or [.], then a colon. This is the reading of
    the specification's "scheme"; the code under [Browser] does not use
    it. *)
Definition has_scheme (url : string) : bool :=
  match url with
  | EmptyString => false
  | String c rest => is_alpha c && scheme_then_colon rest
  end.

End Uri.

(** ** Concrete relays and peers, for running the relay and the tool *)

Module Peers.
Import Browser.

(** Lists and dicts print as a fixed text. *)
#[export] Instance plain_repr : PyRepr := {| repr := fun _ => "<container>" |}.

(** A relay that listens and has the websocket 0 as its peer. *)
Definition connected : BrowserRelay :=
  connection_opened 0 RELAY_PATH (start true new_relay).

(** The reply of the peer to command [id] with the result [v]. *)
Definition reply (id : Z) (v : json) : json :=
  JObj {[ "id" := JInt id; "result" := v ]}.

(** The result of [Runtime.evaluate] with [returnByValue]: the value [v]. *)
Definition evaluated (v : json) : json :=
  JObj {[ "result" := JObj {[ "type" := JStr "string"; "value" := v ]} ]}.

(** A peer that takes the frame and lets the deadline pass. *)
Definition silent : Env :=
  {| send_raises := None; arrivals := []; stragglers := [] |}.

(** A peer that answers the first command with [v]. *)
Definition answers (v : json) : Env :=
  {| send_raises := None; arrivals := [Delivers (Some (reply 1 v))];
     stragglers := [] |}.

(** A peer whose socket is closed under the relay: [send] raises. *)
Definition broken : Env :=
  {| send_raises := Some (PyExn ConnectionClosed "no close frame received or sent");
     arrivals := []; stragglers := [] |}.

Definition tool_env (env : Env) : ToolEnv :=
  {| relay_env := env; screenshot_file := Ok "/workspace/screenshot_0.png" |}.

(** The arguments of a [navigate] to [url]. *)
Definition to_url (url : string) : gmap string json := {[ "url" := JStr url ]}.

(** The relay starts, the extension connects, and the [send] of the first
    command raises because the socket is already closed. *)
Definition send_fails : list event :=
  [ Starts true;
    Peer (Connects 0 RELAY_PATH);
    Calls "Page.navigate" (JObj (to_url "https://example.com"))
      (Some (PyExn ConnectionClosed "no close frame received or sent")) ].

(** A document body of 5000 characters: 2000 times [a], then 3000 times
    [b]. *)
Fixpoint chars (n : nat) (c : ascii) : string :=
  match n with
  | O => EmptyString
  | S k => String c (chars k c)
  end.

Definition body_5000 : string := chars 2000 "a" +:+ chars 3000 "b".

End Peers.

(** ** A registry whose browser tool takes screenshots *)

Module Shots.
Import Loop Scripted.

Definition shot_text : string := "Screenshot saved to /workspace/screenshot_0.png".

(** As [Scripted.collaborators], but the tool [browser_use] answers with a
    screenshot. *)
Definition collaborators : Collaborators :=
  {| chat := fun w _ =>
       match w with
       | [] => ([], Raise (PyExn OtherException "script is over"))
       | r :: rest => (rest, play r)
       end;
     tools_execute := fun w name _ =>
       (w, Ok (if String.eqb name "browser_use" then shot_text else "ok"));
     set_tool_contexts := fun w _ _ => w;
     get_history := fun turns => map turn_content turns;
     build_messages := fun history current _ =>
       map FromContext history ++ [FromContext current];
     json_dumps := fun _ => "{}" |}.

Definition shot_call : ToolCall :=
  {| tc_id := "call_1"; tc_name := "browser_use"; tc_arguments := tt |}.

Definition file_call : ToolCall :=
  {| tc_id := "call_2"; tc_name := "read_file"; tc_arguments := tt |}.

(** A provider that asks for a screenshot on every turn. *)
Definition always_shots : list reply :=
  [ Replies None [("call_1", "browser_use")];
    Replies None [("call_2", "browser_use")] ].

End Shots.

(** ** More peers, runs of the scheduler and a channel configuration *)

Module Samples.
Import Browser Peers JsonBot.

Definition ping : json := JObj {[ "method" := JStr "ping" ]}.

(** A peer that pings, then answers the first command with [v]. *)
Definition answers_after_ping (v : json) : Env :=
  {| send_raises := None;
     arrivals := [Delivers (Some ping); Delivers (Some (reply 1 v))];
     stragglers := [] |}.

(** A peer that rejects the first command, in a frame that has a result as
    well. *)
Definition rejects (err : json) : Env :=
  {| send_raises := None;
     arrivals :=
       [Delivers (Some (JObj {[ "id" := JInt 1; "error" := err;
                                "result" := JStr "ignored" ]}))];
     stragglers := [] |}.

(** A peer that pings, sends a frame that is not JSON, answers another id
    in a list, and goes away; after the deadline the answer comes. *)
Definition too_late (v : json) : Env :=
  {| send_raises := None;
     arrivals := [Delivers (Some ping); Delivers None;
                  Delivers (Some (JList [JStr "id"; JStr "result"]));
                  Disconnects 0];
     stragglers := [Delivers (Some (reply 1 v))] |}.

(** The relay starts, the extension connects, a command is sent and
    answered, and the call returns. *)
Definition answered_run : list event :=
  [ Starts true;
    Peer (Connects 0 RELAY_PATH);
    Calls "Runtime.evaluate" (JObj {[ "expression" := JStr "1+1" ]}) None;
    Peer (Delivers (Some (reply 1 (JInt 2))));
    Returns 1 ].

(** Afterwards the same id is answered again, and a second command runs
    into its deadline. *)
Definition afterwards : list event :=
  [ Peer (Delivers (Some (reply 1 (JStr "again"))));
    Calls "Page.navigate" (JObj (to_url "https://example.com")) None;
    Deadline 2;
    Peer (Delivers (Some (reply 2 JNull)));
    TimesOut 2 ].

Definition bridge : JsonBotConfig :=
  {| host := "127.0.0.1"; reply_port := 5000; listen_port := 5001 |}.

Definition no_posts : Http := {| posts := []; failures := [] |}.

End Samples.

(** * Properties *)

(** ** The string functions on small inputs *)

Section Examples.

Example split_three : split ":" 2 "chanA:42:done" = ["chanA"; "42"; "done"].
Proof. reflexivity. Qed.

Example split_two : split ":" 2 "chanA:42" = ["chanA"; "42"].
Proof. reflexivity. Qed.

Example split_keeps_later_colons :
  split ":" 2 "a:b:c:d:" = ["a"; "b"; "c:d:"].
Proof. reflexivity. Qed.

Example split_empty_fields : split ":" 2 "::" = [""; ""; ""].
Proof. reflexivity. Qed.

Example replace_without_overlap : replace "aa" "b" "aaaaa" = "bba".
Proof. reflexivity. Qed.

Example screenshot_path :
  strip (replace "Screenshot saved to " "" "Screenshot saved to /tmp/shot 1.png ")
  = "/tmp/shot 1.png".
Proof. reflexivity. Qed.

Example slice_short : slice_to 3 "ab" = "ab".
Proof. reflexivity. Qed.

Example slice_long : slice_to 3 "abcdef" = "abc".
Proof. reflexivity. Qed.

Example scheme_of_https : Uri.has_scheme "https://example.com" = true.
Proof. reflexivity. Qed.

Example no_scheme : Uri.has_scheme "example.com/a:b" = false.
Proof. reflexivity. Qed.

End Examples.

(** ** Strings *)

Section StringFacts.

Lemma partition_some sep s a b :
  partition sep s = Some (a, b) ->
  s = a +:+ String sep b /\ count_char sep a = 0.
Proof.
  revert a b. induction s as [|c s IH]; intros a b; simpl; [discriminate|].
  destruct (Ascii.eqb c sep) eqn:E.
  - intros [= <- <-]. apply Ascii.eqb_eq in E. subst. split; reflexivity.
  - destruct (partition sep s) as [[a' b']|]; [|discriminate].
    intros [= <- <-]. destruct (IH a' b' eq_refl) as [-> Hc].
    simpl. rewrite E. split; [reflexivity|exact Hc].
Qed.

Lemma partition_none sep s :
  partition sep s = None <-> count_char sep s = 0.
Proof.
  induction s as [|c s IH]; simpl; [tauto|].
  destruct (Ascii.eqb c sep).
  - split; [discriminate|]. intros; lia.
  - destruct (partition sep s) as [[a b]|].
    + split; [discriminate|]. intros Hc. apply IH in Hc. discriminate.
    + split; [|reflexivity]. intros _. apply IH. reflexivity.
Qed.

Lemma count_char_app c s t :
  count_char c (s +:+ t) = count_char c s + count_char c t.
Proof. induction s as [|d s IH]; simpl; [reflexivity|]. rewrite IH. lia. Qed.

(** [split(sep, 2)] yields three fields exactly when the separator is
    there twice, and then cuts at its first two occurrences. *)
Lemma split2_three sep s a b c :
  split sep 2 s = [a; b; c] <->
  s = a +:+ String sep (b +:+ String sep c)
  /\ count_char sep a = 0 /\ count_char sep b = 0.
Proof.
  simpl. split.
  - destruct (partition sep s) as [[a' r]|] eqn:E1; [|discriminate].
    destruct (partition sep r) as [[b' c']|] eqn:E2; [|discriminate].
    intros [= <- <- <-].
    apply partition_some in E1 as [-> ?]. apply partition_some in E2 as [-> ?].
    auto.
  - intros (-> & Ha & Hb).
    assert (P : forall x y, count_char sep x = 0 ->
                   partition sep (x +:+ String sep y) = Some (x, y)).
    { clear. induction x as [|d x IH]; simpl; intros y Hx.
      - rewrite Ascii.eqb_refl. reflexivity.
      - destruct (Ascii.eqb d sep); [lia|]. rewrite IH by lia. reflexivity. }
    rewrite P by assumption. rewrite P by assumption. reflexivity.
Qed.

Lemma split2_fewer sep s :
  length (split sep 2 s) < 3 <-> count_char sep s < 2.
Proof.
  simpl. destruct (partition sep s) as [[a r]|] eqn:E1.
  - apply partition_some in E1 as [-> Ha]. rewrite count_char_app, Ha. simpl.
    rewrite Ascii.eqb_refl.
    destruct (partition sep r) as [[b c]|] eqn:E2.
    + apply partition_some in E2 as [-> Hb]. rewrite count_char_app. simpl.
      rewrite Ascii.eqb_refl. lia.
    + apply partition_none in E2. simpl. lia.
  - apply partition_none in E1. simpl. lia.
Qed.

Lemma prefix_refl s : String.prefix s s = true.
Proof.
  induction s as [|c s IH]; simpl; [reflexivity|].
  destruct (ascii_dec c c); [exact IH|congruence].
Qed.

Lemma str_contains_suffix p s : str_contains s (p +:+ s) = true.
Proof.
  induction p as [|c p IH]; simpl.
  - change ("" +:+ s) with s. destruct s; [reflexivity|].
    cbn [str_contains]. rewrite prefix_refl. reflexivity.
  - rewrite IH. apply orb_true_r.
Qed.

End StringFacts.

(** ** Slicing *)

Section Slicing.

Lemma slice_to_length n s :
  String.length (slice_to n s) = Nat.min n (String.length s).
Proof.
  unfold slice_to. revert s.
  induction n as [|n IH]; intros [|c s]; simpl; try reflexivity.
  rewrite IH. reflexivity.
Qed.

Lemma slice_to_prefix n s : exists rest, s = slice_to n s +:+ rest.
Proof.
  unfold slice_to. revert s.
  induction n as [|n IH]; intros [|c s]; simpl.
  - exists "". reflexivity.
  - exists (String c s). reflexivity.
  - exists "". reflexivity.
  - destruct (IH s) as [rest Hrest]. exists rest. rewrite Hrest at 1. reflexivity.
Qed.

Lemma slice_to_all n s : String.length s <= n -> slice_to n s = s.
Proof.
  unfold slice_to. revert s.
  induction n as [|n IH]; intros [|c s]; simpl; intros Hlen;
    try reflexivity; try lia.
  rewrite IH by lia. reflexivity.
Qed.

End Slicing.

(** ** The session store *)

Section SessionFacts.
Import Loop.

Lemma add_message_lookup key t (ss : gmap string (list Turn)) :
  add_message key t ss !! key = Some (default [] (ss !! key) ++ [t]).
Proof. unfold add_message. apply lookup_insert_eq. Qed.

Lemma add_message_other key k t (ss : gmap string (list Turn)) :
  k <> key -> add_message key t ss !! k = ss !! k.
Proof. intros Hne. unfold add_message. apply lookup_insert_ne. congruence. Qed.

Lemma get_or_create_history key (ss : gmap string (list Turn)) :
  default [] (get_or_create key ss !! key) = default [] (ss !! key).
Proof.
  unfold get_or_create. destruct (ss !! key) eqn:E; [by rewrite E|].
  by rewrite lookup_insert_eq.
Qed.

Lemma add_message_new_session key t (ss : gmap string (list Turn)) :
  add_message key t (get_or_create key ss)
  = <[key := default [] (ss !! key) ++ [t]]> ss.
Proof.
  unfold add_message. rewrite get_or_create_history.
  unfold get_or_create. destruct (ss !! key) eqn:E; [done|].
  by rewrite insert_insert_eq.
Qed.

Lemma add_message_twice key t1 t2 h (ss : gmap string (list Turn)) :
  add_message key t2 (<[key := h ++ [t1]]> ss) = <[key := h ++ [t1; t2]]> ss.
Proof.
  unfold add_message. rewrite lookup_insert_eq, insert_insert_eq. simpl.
  by rewrite <- app_assoc.
Qed.

End SessionFacts.

(** ** The turn loop *)

Section LoopFacts.
Import Loop.
Context `{Collaborators}.

(** With one unit of fuel per remaining turn the loop returns. *)
Lemma agent_loop_returns fuel bound w l calls :
  (bound - iteration l <= Z.of_nat fuel)%Z ->
  is_Some (agent_loop fuel bound w l calls).
Proof.
  revert w l calls.
  induction fuel as [|fuel IH]; intros w l calls Hfuel; simpl;
    destruct (iteration l <? bound)%Z eqn:E; try (by eexists);
    apply Z.ltb_lt in E; [lia|].
  destruct (chat w (messages l)) as [w' [response|e]]; [|by eexists].
  destruct (resp_tool_calls response) as [|tc tcs]; [by eexists|].
  destruct (execute_tools _ _ _ _) as [[w'' msgs'] paths].
  apply IH. simpl. lia.
Qed.

(** What a finished loop tells about its run: every turn made one call;
    the counter stops at the bound; and [final_content] is still unset
    only if the loop ended because the bound was reached, every reply
    having had tool calls. *)
Lemma agent_loop_run fuel bound w l calls w' l' calls' :
  agent_loop fuel bound w l calls = Some (w', l', calls') ->
  (Z.of_nat calls' - Z.of_nat calls = iteration l' - iteration l)%Z
  /\ (iteration l <= iteration l')%Z
  /\ (iteration l' <= Z.max bound (iteration l))%Z
  /\ (final_content l = None -> final_content l' = None ->
      (bound <= iteration l')%Z
      /\ ((iteration l < bound)%Z ->
          exists tc tcs, tool_calls l' = Some (tc :: tcs))
      /\ ((bound <= iteration l)%Z -> l' = l)).
Proof.
  revert w l calls.
  induction fuel as [|fuel IH]; intros w l calls; simpl;
    destruct (iteration l <? bound)%Z eqn:E;
    try discriminate;
    try (apply Z.ltb_ge in E; intros [= <- <- <-];
         repeat split; try lia; intros; lia).
  apply Z.ltb_lt in E.
  destruct (chat w (messages l)) as [w1 [response|e]].
  - destruct (resp_tool_calls response) as [|tc tcs] eqn:Etc.
    + intros [= <- <- <-]. simpl. repeat split; try lia; discriminate.
    + destruct (execute_tools _ _ _ _) as [[w2 msgs'] paths].
      intros Hrun. apply IH in Hrun. simpl in Hrun.
      destruct Hrun as (Hc & Hle & Hmax & Hnone).
      split; [lia|]. split; [lia|]. split; [lia|].
      intros Hl Hl'. destruct (Hnone Hl Hl') as (Hb & Htc & Hsame).
      split; [exact Hb|]. split; [|lia].
      intros _.
      destruct (Z.lt_ge_cases (iteration l + 1) bound) as [Hlt|Hge];
        [exact (Htc Hlt)|].
      rewrite (Hsame Hge). simpl. eauto.
  - intros [= <- <- <-]. simpl. repeat split; try lia; discriminate.
Qed.

End LoopFacts.

(** ** System announcements *)

Section SystemMessages.
Import Loop.
Context `{Collaborators}.

Lemma split_length sep n s : length (split sep n s) <= S n.
Proof.
  revert s. induction n as [|n IH]; intros s; simpl; [lia|].
  destruct (partition sep s) as [[a b]|]; simpl; [|lia].
  specialize (IH b). lia.
Qed.

(** C3. A message on the system channel makes no model call and leaves
    the loop object as it was. If [content.split(":", 2)] has three
    fields [a], [b], [c] (so the content is [a:b:c] with no colon in [a]
    and [b], whatever colons [c] has), one outbound message is returned,
    to channel [a] and chat [b], whose content is the fixed heading
    followed by [c], and so contains [c]; if the split has fewer than
    three fields, nothing is returned. The split never has more than
    three fields. *)
Theorem system_announcement_forwarded (self : AgentLoop) (msg : InboundMessage) :
  channel msg = "system" ->
  exists p,
    _process_message self msg = Some p
    /\ self_after p = self /\ model_calls p = 0
    /\ length (split ":" 2 (content msg)) <= 3
    /\ (forall a b c,
          split ":" 2 (content msg) = [a; b; c] ->
          content msg = a +:+ ":" +:+ b +:+ ":" +:+ c
          /\ count_char ":" a = 0 /\ count_char ":" b = 0
          /\ exists text,
               returned p =
                 Ok (Some {| out_channel := a; out_chat_id := b;
                             out_content := Some text; out_media := [] |})
               /\ text = "Subagent task completed:" +:+ String "010" c
               /\ str_contains c text = true)
    /\ (length (split ":" 2 (content msg)) < 3 -> returned p = Ok None).
Proof.
  intros Hsys. unfold _process_message. rewrite Hsys.
  change (String.eqb "system" "system") with true. cbv iota.
  eexists. split; [reflexivity|]. cbn [self_after model_calls returned].
  split; [reflexivity|]. split; [reflexivity|].
  split; [apply split_length|]. split.
  - intros a b c Hsplit. unfold _process_system_message. rewrite Hsplit.
    apply split2_three in Hsplit as (Hc & Ha & Hb).
    split; [exact Hc|]. split; [exact Ha|]. split; [exact Hb|].
    eexists. split; [reflexivity|]. split; [reflexivity|].
    exact (str_contains_suffix
             ("Subagent task completed:" +:+ String "010" "") c).
  - intros Hlen. unfold _process_system_message.
    destruct (split ":" 2 (content msg)) as [|a [|b [|c [|d rest]]]];
      try reflexivity; simpl in Hlen; lia.
Qed.

End SystemMessages.

Section SystemMessagesWitness.
Import Loop Scripted.

Lemma system_announcement_forwarded_witness :
  exists p,
    _process_message (agent 10 []) announcement = Some p
    /\ returned p =
         Ok (Some {| out_channel := "chanA"; out_chat_id := "42";
                     out_content :=
                       Some ("Subagent task completed:"
                               +:+ String "010" "done: 3 files");
                     out_media := [] |}).
Proof.
  destruct (system_announcement_forwarded (agent 10 []) announcement eq_refl)
    as (p & Hp & _ & _ & _ & H3 & _).
  exists p. split; [exact Hp|].
  destruct (H3 "chanA" "42" "done: 3 files" eq_refl)
    as (_ & _ & _ & text & Hr & -> & _).
  exact Hr.
Defined.

End SystemMessagesWitness.

(** ** Replies without tool calls *)

Section TextReplies.
Import Loop.
Context `{Collaborators}.

Lemma agent_loop_final_answer fuel bound w l calls w' response :
  (iteration l < bound)%Z ->
  chat w (messages l) = (w', Ok response) ->
  resp_tool_calls response = [] ->
  agent_loop (S fuel) bound w l calls =
    Some (w',
          {| iteration := iteration l + 1;
             final_content := Some (default "" (resp_content response));
             tool_calls := Some [];
             media_from_tool_results := media_from_tool_results l;
             messages := messages l
                           ++ [Assistant (default "" (resp_content response)) None] |},
          S calls).
Proof.
  intros Hlt Hchat Hno. cbn [agent_loop].
  apply Z.ltb_lt in Hlt. rewrite Hlt, Hchat, Hno. reflexivity.
Qed.

(** A first reply without tool calls ends the loop after one call. *)
Lemma process_reply_without_tools self msg w' response :
  channel msg <> "system" ->
  (0 < max_iterations self)%Z ->
  first_reply self msg = (w', Ok response) ->
  resp_tool_calls response = [] ->
  let text := default "" (resp_content response) in
  exists p,
    _process_message self msg = Some p
    /\ model_calls p = 1
    /\ returned p =
         Ok (Some {| out_channel := channel msg; out_chat_id := chat_id msg;
                     out_content :=
                       Some (if str_truthy text then text else fallback_text);
                     out_media := [] |})
    /\ sessions (self_after p) =
         <[session_key msg :=
             default [] (sessions self !! session_key msg)
               ++ (if str_truthy text
                   then [user_turn msg; assistant_turn text]
                   else [user_turn msg])]> (sessions self).
Proof.
  intros Hch Hpos Hchat Hno text. unfold _process_message.
  apply String.eqb_neq in Hch. rewrite Hch.
  destruct (Z.to_nat (max_iterations self)) as [|fuel] eqn:Efuel; [lia|].
  unfold first_reply in Hchat.
  assert (Hlt : (iteration (initial_locals self msg) < max_iterations self)%Z)
    by (simpl; lia).
  rewrite (agent_loop_final_answer fuel _ _ _ 0 w' response Hlt Hchat Hno).
  eexists. split; [reflexivity|].
  cbn [model_calls returned self_after sessions final_content tool_calls
       media_from_tool_results initial_locals truthy].
  fold text. split; [reflexivity|].
  rewrite add_message_new_session.
  destruct (str_truthy text) eqn:Et.
  - split; [reflexivity|]. apply add_message_twice.
  - split; reflexivity.
Qed.

(** C2. When the first reply of the provider (there is one as soon as the
    turn budget is at least one) has a non-empty text and no tool calls,
    [_process_message] makes that one call and returns one
    outbound message, to the channel and chat of the inbound message, with
    that text and no media; the session of the message's key gets the user
    turn with the message's content and then the assistant turn with the
    text, and nothing else in the session store changes. *)
Theorem text_reply_outbound_and_turns
    (self : AgentLoop) (msg : InboundMessage) w' response text :
  channel msg <> "system" ->
  (0 < max_iterations self)%Z ->
  first_reply self msg = (w', Ok response) ->
  resp_content response = Some text ->
  text <> "" ->
  resp_tool_calls response = [] ->
  exists p,
    _process_message self msg = Some p
    /\ model_calls p = 1
    /\ returned p =
         Ok (Some {| out_channel := channel msg; out_chat_id := chat_id msg;
                     out_content := Some text; out_media := [] |})
    /\ sessions (self_after p) =
         <[session_key msg :=
             default [] (sessions self !! session_key msg)
               ++ [ {| role := "user"; turn_content := content msg;
                       turn_media := Some (media msg) |};
                    {| role := "assistant"; turn_content := text;
                       turn_media := None |} ]]> (sessions self).
Proof.
  intros Hch Hpos Hchat Htext Hne Hno.
  destruct (process_reply_without_tools self msg w' response Hch Hpos Hchat Hno)
    as (p & Hp & Hcalls & Hret & Hss).
  rewrite Htext in Hret, Hss. cbn [default from_option id] in Hret, Hss.
  assert (Ht : str_truthy text = true) by (destruct text; [congruence|reflexivity]).
  rewrite Ht in Hret, Hss.
  exists p. repeat split; assumption.
Qed.

(** C10. When the first reply of the provider (there is one as soon as the
    turn budget is at least one) has no text ([None] or the empty
    string) and no tool calls, the session of the message's key gets
    the user turn and nothing more, and the outbound message returned
    carries the fallback text, which therefore stays out of the session. *)
Theorem empty_reply_fallback_not_persisted
    (self : AgentLoop) (msg : InboundMessage) w' response :
  channel msg <> "system" ->
  (0 < max_iterations self)%Z ->
  first_reply self msg = (w', Ok response) ->
  default "" (resp_content response) = "" ->
  resp_tool_calls response = [] ->
  exists p,
    _process_message self msg = Some p
    /\ returned p =
         Ok (Some {| out_channel := channel msg; out_chat_id := chat_id msg;
                     out_content := Some "I'm not sure how to respond to that.";
                     out_media := [] |})
    /\ sessions (self_after p) =
         <[session_key msg :=
             default [] (sessions self !! session_key msg)
               ++ [ {| role := "user"; turn_content := content msg;
                       turn_media := Some (media msg) |} ]]> (sessions self).
Proof.
  intros Hch Hpos Hchat Htext Hno.
  destruct (process_reply_without_tools self msg w' response Hch Hpos Hchat Hno)
    as (p & Hp & Hcalls & Hret & Hss).
  rewrite Htext in Hret, Hss. cbn [str_truthy] in Hret, Hss.
  exists p. repeat split; assumption.
Qed.

End TextReplies.

Section TextRepliesExamples.
Import Loop Scripted.

Lemma text_reply_outbound_and_turns_witness :
  exists p,
    _process_message (agent 10 [Replies (Some "Hello!") []]) (inbound "hi") = Some p
    /\ model_calls p = 1
    /\ returned p =
         Ok (Some {| out_channel := "cli"; out_chat_id := "direct";
                     out_content := Some "Hello!"; out_media := [] |})
    /\ sessions (self_after p) =
         <[ "cli:direct" :=
              [ {| role := "user"; turn_content := "hi"; turn_media := Some [] |};
                {| role := "assistant"; turn_content := "Hello!";
                   turn_media := None |} ] ]> ∅.
Proof.
  apply (text_reply_outbound_and_turns
           (agent 10 [Replies (Some "Hello!") []]) (inbound "hi")
           [] {| resp_content := Some "Hello!"; resp_tool_calls := [] |} "Hello!").
  - discriminate.
  - reflexivity.
  - reflexivity.
  - reflexivity.
  - discriminate.
  - reflexivity.
Defined.

Lemma empty_reply_fallback_not_persisted_witness :
  exists p,
    _process_message (agent 10 [Replies None []]) (inbound "hi") = Some p
    /\ returned p =
         Ok (Some {| out_channel := "cli"; out_chat_id := "direct";
                     out_content := Some "I'm not sure how to respond to that.";
                     out_media := [] |})
    /\ sessions (self_after p) =
         <[ "cli:direct" :=
              [ {| role := "user"; turn_content := "hi"; turn_media := Some [] |} ] ]> ∅.
Proof.
  apply (empty_reply_fallback_not_persisted
           (agent 10 [Replies None []]) (inbound "hi")
           [] {| resp_content := None; resp_tool_calls := [] |}).
  - discriminate.
  - reflexivity.
  - reflexivity.
  - reflexivity.
  - reflexivity.
Defined.

End TextRepliesExamples.

(** ** The turn budget *)

Section TurnBudget.
Import Loop.
Context `{Collaborators}.

(** An empty final answer can only come from a reply without tool calls:
    the text recorded for a provider failure is never empty. *)
Lemma agent_loop_empty_answer fuel bound w l calls w' l' calls' :
  agent_loop fuel bound w l calls = Some (w', l', calls') ->
  final_content l = None ->
  forall text, final_content l' = Some text -> str_truthy text = false ->
  tool_calls l' = Some [].
Proof.
  revert w l calls.
  induction fuel as [|fuel IH]; intros w l calls; simpl;
    destruct (iteration l <? bound)%Z;
    try discriminate;
    try (intros [= <- <- <-] Hl text Hl'; congruence).
  destruct (chat w (messages l)) as [w1 [response|e]].
  - destruct (resp_tool_calls response) as [|tc tcs] eqn:Etc.
    + intros [= <- <- <-]. reflexivity.
    + destruct (execute_tools _ _ _ _) as [[w2 msgs'] paths].
      intros Hrun Hl. exact (IH _ _ _ Hrun Hl).
  - intros [= <- <- <-] _ text [= <-]. discriminate.
Qed.

(** [_process_message] returns or raises for every loop object and every
    message: the fuel it gives the loop is always enough. *)
Lemma process_message_returns (self : AgentLoop) (msg : InboundMessage) :
  is_Some (_process_message self msg).
Proof.
  unfold _process_message.
  destruct (String.eqb (channel msg) "system"); [by eexists|].
  destruct (agent_loop_returns (Z.to_nat (max_iterations self))
              (max_iterations self)
              (set_tool_contexts (world self) (channel msg) (chat_id msg))
              (initial_locals self msg) 0) as [[[w' l] calls] Hrun];
    [simpl; lia|].
  rewrite Hrun. by eexists.
Qed.

(** C1, as the code has it. For a message that is not a system
    announcement and a turn count [N >= 0], the call returns having made at
    most [N] calls of the provider. If the loop ends with no final answer
    recorded, which is the case where the budget is used up (the turn
    counter has reached [N]), exactly [N] calls were made, and for [N >= 1]
    the outbound message returned has no text: its content is the unset
    final answer, [None], because the fallback is kept for a last reply
    without tool calls. If a final answer was recorded, the message carries
    it, or the fallback text when it is empty. *)
Theorem turn_budget_bounds_model_calls (self : AgentLoop) (msg : InboundMessage) :
  channel msg <> "system" ->
  (0 <= max_iterations self)%Z ->
  exists p l,
    _process_message self msg = Some p
    /\ locals_after p = Some l
    /\ (Z.of_nat (model_calls p) <= max_iterations self)%Z
    /\ (final_content l = None ->
        Z.of_nat (model_calls p) = max_iterations self
        /\ (max_iterations self <= iteration l)%Z
        /\ ((0 < max_iterations self)%Z ->
            returned p =
              Ok (Some {| out_channel := channel msg; out_chat_id := chat_id msg;
                          out_content := None;
                          out_media := media_from_tool_results l |})))
    /\ (forall text, final_content l = Some text ->
          returned p =
            Ok (Some {| out_channel := channel msg; out_chat_id := chat_id msg;
                        out_content :=
                          Some (if str_truthy text then text else fallback_text);
                        out_media := media_from_tool_results l |})).
Proof.
  intros Hch Hnonneg. unfold _process_message.
  apply String.eqb_neq in Hch. rewrite Hch.
  destruct (agent_loop_returns (Z.to_nat (max_iterations self))
              (max_iterations self)
              (set_tool_contexts (world self) (channel msg) (chat_id msg))
              (initial_locals self msg) 0) as [[[w' l] calls] Hrun];
    [simpl; lia|].
  rewrite Hrun. eexists. exists l.
  split; [reflexivity|]. cbn [locals_after model_calls returned].
  split; [reflexivity|].
  pose proof (agent_loop_run _ _ _ _ _ _ _ _ Hrun) as (Hc & Hle & Hmax & Hnone).
  pose proof (agent_loop_empty_answer _ _ _ _ _ _ _ _ Hrun eq_refl) as Hempty.
  simpl in Hc, Hle, Hmax, Hnone.
  split; [lia|]. split.
  - intros Hl. destruct (Hnone eq_refl Hl) as (Hb & Htc & _).
    split; [lia|]. split; [exact Hb|].
    intros Hpos. destruct (Htc Hpos) as (tc & tcs & ->).
    rewrite Hl. reflexivity.
  - intros text Hl. rewrite Hl. cbn [truthy].
    destruct (str_truthy text) eqn:Et; [reflexivity|].
    rewrite (Hempty text Hl Et). reflexivity.
Qed.

End TurnBudget.

Section TurnBudgetExamples.
Import Loop Scripted.

Lemma turn_budget_bounds_model_calls_witness :
  exists p l,
    _process_message (agent 3 always_tools) (inbound "list the files") = Some p
    /\ locals_after p = Some l
    /\ (Z.of_nat (model_calls p) <= 3)%Z
    /\ (final_content l = None ->
        Z.of_nat (model_calls p) = 3%Z
        /\ returned p =
             Ok (Some {| out_channel := "cli"; out_chat_id := "direct";
                         out_content := None;
                         out_media := media_from_tool_results l |})).
Proof.
  destruct (turn_budget_bounds_model_calls
              (agent 3 always_tools) (inbound "list the files"))
    as (p & l & Hp & Hl & Hcalls & Hnone & _).
  - discriminate.
  - simpl. lia.
  - exists p, l. split; [exact Hp|]. split; [exact Hl|]. split; [exact Hcalls|].
    intros Hfinal. destruct (Hnone Hfinal) as (Hn & _ & Hout).
    split; [exact Hn|]. apply Hout. reflexivity.
Defined.

(** With a budget of three turns and a provider that asks for a tool on
    every turn, three calls are made, no final answer is recorded, and the
    content of the outbound message is [None]: neither an answer nor the
    fallback text. *)
Lemma budget_exhausted_emits_no_text :
  exists p l out,
    _process_message (agent 3 always_tools) (inbound "list the files") = Some p
    /\ locals_after p = Some l
    /\ model_calls p = 3
    /\ final_content l = None
    /\ returned p = Ok (Some out)
    /\ out_content out = None
    /\ ~ (out_content out = Some fallback_text
          \/ exists text, out_content out = Some text).
Proof.
  eexists _, _, _. split; [vm_compute; reflexivity|].
  split; [reflexivity|]. split; [reflexivity|]. split; [reflexivity|].
  split; [reflexivity|]. split; [reflexivity|].
  cbn [out_content]. intros [Hf|[text Ht]]; discriminate.
Qed.

End TurnBudgetExamples.

(** ** What the peer's events can do to the relay *)

Section PeerEvents.
Import Browser.
Context `{PyRepr}.

(** The three things handling one decoded frame can do: nothing; answer a
    ping; pop an entry and settle its future, unless that is done. *)
Lemma handle_data_shape data (self : BrowserRelay) :
  fst (handle_data data self) = self
  \/ (exists ws, extension_ws self = Some ws
                /\ fst (handle_data data self) = with_send_call ws pong self)
  \/ (exists c fut outcome,
        pending_commands self !! c = Some fut
        /\ done outcome = true
        /\ fst (handle_data data self)
           = resolve fut outcome
               (with_pending_commands (delete c (pending_commands self)) self)).
Proof.
  unfold handle_data.
  destruct data as [| b | n | str | l | m]; cbn [py_in py_getitem py_get];
    repeat case_match; simplify_eq; cbn [fst]; eauto 10.
  all: right; right; do 3 eexists; split; [eassumption|];
    split; [|reflexivity]; reflexivity.
Qed.

Lemma resolve_fields fut outcome (self : BrowserRelay) :
  let self' := resolve fut outcome self in
  port self' = port self /\ server self' = server self
  /\ extension_ws self' = extension_ws self
  /\ command_id self' = command_id self
  /\ pending_commands self' = pending_commands self
  /\ _running self' = _running self
  /\ send_calls self' = send_calls self.
Proof.
  unfold resolve. destruct (futures self !! fut) as [f|]; [destruct (done f)|];
    repeat split.
Qed.

Lemma commands_sent_resolve fut outcome (self : BrowserRelay) :
  commands_sent (resolve fut outcome self) = commands_sent self.
Proof.
  unfold commands_sent.
  destruct (resolve_fields fut outcome self) as (_ & _ & _ & _ & _ & _ & ->).
  reflexivity.
Qed.

Lemma commands_sent_pong ws (self : BrowserRelay) :
  commands_sent (with_send_call ws pong self) = commands_sent self.
Proof.
  unfold commands_sent. cbn [send_calls with_send_call].
  rewrite filter_app. cbn. rewrite app_nil_r. reflexivity.
Qed.

Lemma commands_sent_handle_data data (self : BrowserRelay) :
  commands_sent (fst (handle_data data self)) = commands_sent self.
Proof.
  destruct (handle_data_shape data self)
    as [-> | [(ws & _ & ->) | (c & fut & o & _ & _ & ->)]];
    try reflexivity.
  - apply commands_sent_pong.
  - rewrite commands_sent_resolve. reflexivity.
Qed.

Lemma commands_sent_peer_step ev (self : BrowserRelay) :
  commands_sent (peer_step self ev) = commands_sent self.
Proof.
  destruct ev as [ws path|[data|]|ws]; cbn [peer_step _handle_message].
  - unfold connection_opened. destruct (negb _); reflexivity.
  - apply commands_sent_handle_data.
  - reflexivity.
  - unfold connection_closed. case_bool_decide; reflexivity.
Qed.

Lemma commands_sent_peer_steps evs (self : BrowserRelay) :
  commands_sent (fold_left peer_step evs self) = commands_sent self.
Proof.
  revert self. induction evs as [|ev evs IH]; intros self; [reflexivity|].
  cbn [fold_left]. rewrite IH. apply commands_sent_peer_step.
Qed.

Lemma commands_sent_await fut evs (self : BrowserRelay) :
  commands_sent (fst (await_future fut evs self)) = commands_sent self.
Proof.
  revert self. induction evs as [|ev evs IH]; intros self; cbn [await_future].
  - repeat case_match; reflexivity.
  - repeat case_match; try reflexivity;
      rewrite IH; apply commands_sent_peer_step.
Qed.

Lemma commands_sent_on_timeout c (self : BrowserRelay) :
  commands_sent (fst (on_timeout c self)) = commands_sent self.
Proof. unfold on_timeout. cbn [fst]. case_match; reflexivity. Qed.

(** A command sent to a peer puts exactly one envelope among the calls of
    [send], whatever the peer does afterwards. *)
Lemma send_command_one_envelope method params env (self : BrowserRelay) ws :
  extension_ws self = Some ws ->
  commands_sent (fst (send_command method params env self))
  = commands_sent self
      ++ [(ws, payload (command_id self + 1) method params)].
Proof.
  intros Hws. unfold send_command, send_command_begin. rewrite Hws.
  set (self1 := with_send_call ws _ _).
  assert (H1 : commands_sent self1
               = commands_sent self
                   ++ [(ws, payload (command_id self + 1) method params)]).
  { unfold commands_sent, self1. cbn [send_calls with_send_call].
    rewrite filter_app. f_equal. }
  destruct (send_raises env) as [e|]; [exact H1|].
  destruct (await_future _ _ self1) as [self2 [r|]] eqn:Ew.
  - cbn [fst]. rewrite <- H1.
    change self2 with (fst (self2, Some r)). rewrite <- Ew.
    apply commands_sent_await.
  - rewrite commands_sent_on_timeout, commands_sent_peer_steps.
    unfold wait_for_expired. rewrite commands_sent_resolve. rewrite <- H1.
    change self2 with (fst (self2, @None (result json))). rewrite <- Ew.
    apply commands_sent_await.
Qed.

End PeerEvents.

(** ** The relay: what one inbound frame or one disconnect changes *)

Section RelayFrames.
Import Browser.
Context `{PyRepr}.

Lemma on_timeout_removes c (r : BrowserRelay) :
  pending_commands (fst (on_timeout c r)) !! c = None.
Proof.
  unfold on_timeout. cbn [fst].
  destruct (pending_commands r !! c) eqn:E; [apply lookup_delete_eq|exact E].
Qed.


(** C9. The [finally] of a connection clears the peer reference when the
    connection was the peer, and changes nothing else: the table, the
    futures, the id counter and the frames sent stay, and the relay is
    neither stopped nor moved (its port, its server and its running flag
    are as before). A command whose future is pending is not failed by the
    disconnect: its wait goes on to the deadline, where the future is
    cancelled, the entry is removed and the caller gets the timeout
    error. *)
Theorem disconnect_leaves_pending_commands (ws : nat) (self : BrowserRelay) :
  let self' := connection_closed ws self in
  pending_commands self' = pending_commands self
  /\ futures self' = futures self
  /\ command_id self' = command_id self
  /\ send_calls self' = send_calls self
  /\ port self' = port self
  /\ server self' = server self
  /\ _running self' = _running self
  /\ extension_ws self' =
       (if bool_decide (extension_ws self = Some ws) then None
        else extension_ws self)
  /\ (forall c,
        futures self !! c = Some FPending ->
        await_future c [Disconnects ws] self = (self', None)
        /\ futures (wait_for_expired c self') !! c = Some FCancelled
        /\ pending_commands (fst (on_timeout c (wait_for_expired c self'))) !! c
           = None
        /\ snd (on_timeout c (wait_for_expired c self'))
           = Raise (PyExn TimeoutError "Browser command timed out")).
Proof.
  intros self'. subst self'. unfold connection_closed.
  assert (Hframe : forall r, r = (if bool_decide (extension_ws self = Some ws)
                                  then with_extension_ws None self else self) ->
            pending_commands r = pending_commands self
            /\ futures r = futures self).
  { intros r ->. case_bool_decide; split; reflexivity. }
  destruct (Hframe _ eq_refl) as [Hp Hf].
  split; [exact Hp|]. split; [exact Hf|].
  split; [case_bool_decide; reflexivity|].
  split; [case_bool_decide; reflexivity|].
  split; [case_bool_decide; reflexivity|].
  split; [case_bool_decide; reflexivity|].
  split; [case_bool_decide; reflexivity|].
  split; [case_bool_decide; [reflexivity|reflexivity]|].
  intros c Hc. split; [|split; [|split]].
  - cbn [await_future]. rewrite Hc. cbn [peer_step]. unfold connection_closed.
    rewrite Hf, Hc. reflexivity.
  - unfold wait_for_expired, resolve. rewrite Hf, Hc. cbn [done futures with_futures].
    apply lookup_insert_eq.
  - apply on_timeout_removes.
  - reflexivity.
Qed.

End RelayFrames.

Section RelayFramesExamples.
Import Browser Peers.


End RelayFramesExamples.

(** ** The pending-command table under the scheduler *)

Section Scheduler.
Import Browser.
Context `{PyRepr}.

Lemma resolve_futures fut outcome (self : BrowserRelay) :
  futures (resolve fut outcome self)
  = match futures self !! fut with
    | Some FPending => <[fut := outcome]> (futures self)
    | _ => futures self
    end.
Proof.
  unfold resolve. destruct (futures self !! fut) as [[]|]; reflexivity.
Qed.

Lemma resolve_other fut outcome (self : BrowserRelay) c :
  c <> fut -> futures (resolve fut outcome self) !! c = futures self !! c.
Proof.
  intros Hne. rewrite resolve_futures.
  destruct (futures self !! fut) as [[]|]; try reflexivity.
  apply lookup_insert_ne. congruence.
Qed.

(** A future that is done stays as it is: [set_result], [set_exception]
    and the cancellation are all guarded by [done]. *)
Lemma resolve_keeps_done fut outcome (self : BrowserRelay) c f :
  futures self !! c = Some f -> done f = true ->
  futures (resolve fut outcome self) !! c = Some f.
Proof.
  intros Hc Hdone. destruct (decide (c = fut)) as [->|Hne].
  - rewrite resolve_futures, Hc. destruct f; try reflexivity; try exact Hc.
    discriminate.
  - rewrite resolve_other by exact Hne. exact Hc.
Qed.

Lemma resolve_settles fut outcome (self : BrowserRelay) :
  done outcome = true -> is_Some (futures self !! fut) ->
  exists f, futures (resolve fut outcome self) !! fut = Some f /\ done f = true.
Proof.
  intros Hdone [f Hf]. rewrite resolve_futures, Hf.
  destruct f; try (eexists; split; [exact Hf|reflexivity]).
  exists outcome. split; [apply lookup_insert_eq|exact Hdone].
Qed.

Lemma resolve_dom fut outcome (self : BrowserRelay) c :
  is_Some (futures (resolve fut outcome self) !! c)
  <-> is_Some (futures self !! c).
Proof.
  rewrite resolve_futures.
  destruct (futures self !! fut) as [[]|] eqn:E; try reflexivity.
  rewrite lookup_insert_is_Some. split.
  - intros [<-|[_ Hc]]; [rewrite E; eauto|exact Hc].
  - intros Hc. destruct (decide (fut = c)); [left|right]; auto.
Qed.

(** Whatever only touches the listening state, the peer reference or the
    calls of [send] keeps a state consistent. *)
Lemma consistent_frame (r r' : BrowserRelay) w :
  pending_commands r' = pending_commands r ->
  futures r' = futures r ->
  command_id r' = command_id r ->
  consistent {| relay := r; waiters := w |} ->
  consistent {| relay := r'; waiters := w |}.
Proof.
  unfold consistent. cbn [relay waiters]. intros -> -> ->. tauto.
Qed.

Lemma consistent_initial : consistent initial.
Proof.
  unfold consistent, initial. cbn.
  split; [|split].
  - intros c [f Hf]. rewrite lookup_empty in Hf. discriminate.
  - intros c fut Hc. rewrite lookup_empty in Hc. discriminate.
  - intros c Hc. rewrite lookup_empty in Hc. discriminate.
Qed.

Lemma consistent_delivery data r w :
  consistent {| relay := r; waiters := w |} ->
  consistent {| relay := fst (handle_data data r); waiters := w |}.
Proof.
  intros Hs.
  destruct (handle_data_shape data r)
    as [-> | [(ws & _ & ->) | (c0 & fut & o & Hc0 & Ho & ->)]];
    [exact Hs | revert Hs; apply consistent_frame; reflexivity |].
  destruct Hs as (Hdom & Htable & Hwait). cbn [relay waiters] in *.
  destruct (Htable c0 fut Hc0) as [-> Hfut].
  set (r1 := with_pending_commands (delete c0 (pending_commands r)) r).
  assert (Hp : pending_commands (resolve c0 o r1) = delete c0 (pending_commands r)).
  { destruct (resolve_fields c0 o r1) as (_ & _ & _ & _ & -> & _). reflexivity. }
  assert (Hid : command_id (resolve c0 o r1) = command_id r).
  { destruct (resolve_fields c0 o r1) as (_ & _ & _ & -> & _). reflexivity. }
  unfold consistent. cbn [relay waiters]. rewrite Hp, Hid.
  split; [|split].
  - intros c Hc. apply resolve_dom in Hc. apply Hdom. exact Hc.
  - intros c fut Hc. apply lookup_delete_Some in Hc as [Hne Hc].
    rewrite resolve_other by congruence. apply Htable. exact Hc.
  - intros c Hw Hf. destruct (decide (c = c0)) as [->|Hne].
    + exfalso.
      destruct (resolve_settles c0 o r1 Ho) as (f & Hf' & Hdone).
      { destruct Hfut as [Hx|[Hx _]]; change (futures r1) with (futures r);
          rewrite Hx; eauto. }
      rewrite Hf in Hf'. injection Hf' as <-. discriminate.
    + rewrite lookup_delete_ne by congruence.
      apply Hwait; [exact Hw|]. rewrite resolve_other in Hf by exact Hne.
      exact Hf.
Qed.

Lemma consistent_call method params raises r w r' res :
  send_command_begin method params raises r = (r', res) ->
  consistent {| relay := r; waiters := w |} ->
  consistent {| relay := r';
                waiters := match res with
                           | Ok c => <[c := Waiting]> w
                           | Raise _ => w
                           end |}.
Proof.
  unfold send_command_begin. destruct (extension_ws r) as [ws|].
  2: { intros [= <- <-]. exact id. }
  intros Hbegin (Hdom & Htable & Hwait). cbn [relay waiters] in *.
  remember (command_id r + 1)%Z as c' eqn:Hc'.
  assert (Hfresh : futures r !! c' = None).
  { destruct (futures r !! c') eqn:E; [|reflexivity].
    assert (c' <= command_id r)%Z by (apply Hdom; eauto). lia. }
  assert (Hr' : pending_commands r' = <[c' := c']> (pending_commands r)
                /\ futures r' = <[c' := FPending]> (futures r)
                /\ command_id r' = c').
  { destruct raises; injection Hbegin as <- _; repeat split. }
  destruct Hr' as (Hp & Hf & Hid).
  assert (Hw : forall c, c <> c' ->
            match res with Ok c => <[c := Waiting]> w | Raise _ => w end !! c
            = w !! c).
  { intros c Hne. destruct raises; injection Hbegin as _ <-; [reflexivity|].
    apply lookup_insert_ne. congruence. }
  unfold consistent. cbn [relay waiters]. rewrite Hp, Hf, Hid.
  split; [|split].
  - intros c Hc. apply lookup_insert_is_Some in Hc as [<-|[_ Hc]]; [lia|].
    apply Hdom in Hc. lia.
  - intros c fut Hc. destruct (decide (c = c')) as [->|Hne].
    + rewrite lookup_insert_eq in Hc. injection Hc as <-.
      split; [reflexivity|]. left. apply lookup_insert_eq.
    + rewrite lookup_insert_ne in Hc by congruence.
      rewrite lookup_insert_ne by congruence. rewrite Hw by exact Hne.
      apply Htable. exact Hc.
  - intros c Hc Hfc. destruct (decide (c = c')) as [->|Hne].
    + rewrite lookup_insert_eq. eauto.
    + rewrite lookup_insert_ne by congruence.
      rewrite lookup_insert_ne in Hfc by congruence. rewrite Hw in Hc by exact Hne.
      apply Hwait; assumption.
Qed.

Lemma consistent_deadline c r w :
  w !! c = Some Waiting ->
  consistent {| relay := r; waiters := w |} ->
  consistent {| relay := wait_for_expired c r; waiters := <[c := Expired]> w |}.
Proof.
  intros Hc (Hdom & Htable & Hwait). unfold wait_for_expired.
  destruct (resolve_fields c FCancelled r) as (_ & _ & _ & Hid & Hp & _).
  unfold consistent. cbn [relay waiters] in *. rewrite Hp, Hid.
  split; [|split].
  - intros d Hd. apply resolve_dom in Hd. apply Hdom. exact Hd.
  - intros d fut Hd. destruct (Htable d fut Hd) as [-> Hfut].
    split; [reflexivity|]. destruct (decide (d = c)) as [->|Hne].
    + right. split; [|apply lookup_insert_eq].
      destruct Hfut as [Hx|[_ Hx]]; [|congruence].
      rewrite resolve_futures, Hx. apply lookup_insert_eq.
    + rewrite resolve_other by exact Hne.
      rewrite lookup_insert_ne by congruence. exact Hfut.
  - intros d Hd Hfd. destruct (decide (d = c)) as [->|Hne].
    + rewrite lookup_insert_eq in Hd. discriminate.
    + rewrite lookup_insert_ne in Hd by congruence.
      rewrite resolve_other in Hfd by exact Hne. apply Hwait; assumption.
Qed.

Lemma on_timeout_fields c (r : BrowserRelay) :
  pending_commands (fst (on_timeout c r)) = delete c (pending_commands r)
  /\ futures (fst (on_timeout c r)) = futures r
  /\ command_id (fst (on_timeout c r)) = command_id r.
Proof.
  unfold on_timeout. cbn [fst].
  destruct (pending_commands r !! c) eqn:E; repeat split.
  symmetry. apply delete_id. exact E.
Qed.

Lemma consistent_timeout c r w :
  w !! c = Some Expired ->
  consistent {| relay := r; waiters := w |} ->
  consistent {| relay := fst (on_timeout c r); waiters := delete c w |}.
Proof.
  intros Hc (Hdom & Htable & Hwait).
  destruct (on_timeout_fields c r) as (Hp & Hf & Hid).
  unfold consistent. cbn [relay waiters] in *. rewrite Hp, Hf, Hid.
  split; [exact Hdom|]. split.
  - intros d fut Hd. apply lookup_delete_Some in Hd as [Hne Hd].
    rewrite lookup_delete_ne by congruence. apply Htable. exact Hd.
  - intros d Hd Hfd. apply lookup_delete_Some in Hd as [Hne Hd].
    rewrite lookup_delete_ne by congruence. apply Hwait; assumption.
Qed.

Lemma consistent_return c r w :
  w !! c = Some Waiting ->
  consistent {| relay := r; waiters := w |} ->
  consistent {| relay := r; waiters := delete c w |}.
Proof.
  intros Hc (Hdom & Htable & Hwait).
  unfold consistent. cbn [relay waiters] in *.
  split; [exact Hdom|]. split.
  - intros d fut Hd. destruct (Htable d fut Hd) as [-> Hfut].
    split; [reflexivity|]. destruct Hfut as [Hx|[Hx Hw]]; [left; exact Hx|].
    right. split; [exact Hx|]. rewrite lookup_delete_ne; [exact Hw|congruence].
  - intros d Hd Hfd. apply lookup_delete_Some in Hd as [Hne Hd].
    apply Hwait; assumption.
Qed.

(** Every step keeps the state consistent. *)
Lemma consistent_step s ev s' :
  consistent s -> step s ev = Some s' -> consistent s'.
Proof.
  destruct s as [r w]. intros Hs.
  destruct ev as [bind_ok| |[ws path|[data|]|ws]|method params raises|c|c|c];
    cbn [step relay waiters peer_step _handle_message].
  - intros [= <-]. revert Hs. apply consistent_frame;
      unfold start; destruct (_running r), bind_ok; reflexivity.
  - intros [= <-]. revert Hs. apply consistent_frame; reflexivity.
  - destruct (server r); [|discriminate]. intros [= <-]. revert Hs.
    apply consistent_frame; unfold connection_opened; destruct (negb _);
      reflexivity.
  - intros [= <-]. apply consistent_delivery. exact Hs.
  - intros [= <-]. exact Hs.
  - intros [= <-]. revert Hs.
    apply consistent_frame; unfold connection_closed; case_bool_decide;
      reflexivity.
  - destruct (send_command_begin method params raises r) as [r' res] eqn:E.
    pose proof (consistent_call _ _ _ _ w _ _ E Hs) as Hs'.
    destruct res; intros [= <-]; exact Hs'.
  - destruct (w !! c) as [[]|] eqn:Ew; try discriminate.
    destruct (futures r !! c) as [[]|]; try discriminate;
      intros [= <-]; apply consistent_return; assumption.
  - destruct (w !! c) as [[]|] eqn:Ew; try discriminate.
    intros [= <-]. apply consistent_deadline; assumption.
  - destruct (w !! c) as [[]|] eqn:Ew; try discriminate.
    intros [= <-]. apply consistent_timeout; assumption.
Qed.

Lemma consistent_run evs s s' :
  consistent s -> run s evs = Some s' -> consistent s'.
Proof.
  revert s. induction evs as [|ev evs IH]; intros s Hs; cbn [run].
  - intros [= <-]. exact Hs.
  - destruct (step s ev) as [s1|] eqn:E; [|discriminate].
    apply IH. eapply consistent_step; eassumption.
Qed.

Ltac fold_on_timeout d r :=
  change (match pending_commands r !! d with
          | Some _ => with_pending_commands (delete d (pending_commands r)) r
          | None => r
          end)
    with (fst (on_timeout d r)).

(** No step touches a future that is done: a future is settled once. *)
Lemma future_settled_once s ev s' c f :
  consistent s -> step s ev = Some s' ->
  futures (relay s) !! c = Some f -> done f = true ->
  futures (relay s') !! c = Some f.
Proof.
  destruct s as [r w]. intros (Hdom & _ & _) Hstep Hc Hdone.
  cbn [relay waiters] in *.
  destruct ev as [bind_ok| |[ws path|[data|]|ws]|method params raises|d|d|d];
    cbn [step relay waiters peer_step _handle_message] in Hstep.
  - injection Hstep as <-. cbn [relay].
    unfold start. destruct (_running r), bind_ok; exact Hc.
  - injection Hstep as <-. exact Hc.
  - destruct (server r); [|discriminate]. injection Hstep as <-. cbn [relay].
    unfold connection_opened. destruct (negb _); exact Hc.
  - injection Hstep as <-. cbn [relay].
    destruct (handle_data_shape data r)
      as [-> | [(ws & _ & ->) | (c0 & fut & o & _ & _ & ->)]];
      [exact Hc | exact Hc |].
    apply resolve_keeps_done; assumption.
  - injection Hstep as <-. exact Hc.
  - injection Hstep as <-. cbn [relay].
    unfold connection_closed. case_bool_decide; exact Hc.
  - unfold send_command_begin in Hstep.
    destruct (extension_ws r) as [ws|]; [|injection Hstep as <-; exact Hc].
    assert (Hne : c <> (command_id r + 1)%Z).
    { intros ->. assert (command_id r + 1 <= command_id r)%Z
        by (apply Hdom; eauto). lia. }
    destruct raises; injection Hstep as <-; cbn [relay futures with_send_call];
      rewrite lookup_insert_ne by congruence; exact Hc.
  - destruct (w !! d) as [[]|]; try discriminate.
    destruct (futures r !! d) as [[]|]; try discriminate;
      injection Hstep as <-; exact Hc.
  - destruct (w !! d) as [[]|]; try discriminate. injection Hstep as <-.
    cbn [relay]. apply resolve_keeps_done; assumption.
  - destruct (w !! d) as [[]|]; try discriminate. injection Hstep as <-.
    cbn [relay]. fold_on_timeout d r.
    destruct (on_timeout_fields d r) as (_ & -> & _). exact Hc.
Qed.

(** An id that was handed out and is not in the table never comes back
    into it: an entry is removed once. *)
Lemma entry_removed_once s ev s' c :
  step s ev = Some s' ->
  (c <= command_id (relay s))%Z ->
  pending_commands (relay s) !! c = None ->
  pending_commands (relay s') !! c = None
  /\ (c <= command_id (relay s'))%Z.
Proof.
  destruct s as [r w]. intros Hstep Hid Hc. cbn [relay waiters] in *.
  destruct ev as [bind_ok| |[ws path|[data|]|ws]|method params raises|d|d|d];
    cbn [step relay waiters peer_step _handle_message] in Hstep.
  - injection Hstep as <-. cbn [relay].
    unfold start. destruct (_running r), bind_ok; split; assumption.
  - injection Hstep as <-. split; assumption.
  - destruct (server r); [|discriminate]. injection Hstep as <-. cbn [relay].
    unfold connection_opened. destruct (negb _); split; assumption.
  - injection Hstep as <-. cbn [relay].
    destruct (handle_data_shape data r)
      as [-> | [(ws & _ & ->) | (c0 & fut & o & _ & _ & ->)]];
      [split; assumption | split; assumption |].
    destruct (resolve_fields fut o
                (with_pending_commands (delete c0 (pending_commands r)) r))
      as (_ & _ & _ & -> & -> & _).
    split; [|exact Hid]. apply lookup_delete_None. right. exact Hc.
  - injection Hstep as <-. split; assumption.
  - injection Hstep as <-. cbn [relay].
    unfold connection_closed. case_bool_decide; split; assumption.
  - unfold send_command_begin in Hstep.
    destruct (extension_ws r) as [ws|];
      [|injection Hstep as <-; split; assumption].
    destruct raises; injection Hstep as <-;
      cbn [relay pending_commands command_id with_send_call];
      (split; [rewrite lookup_insert_ne by lia; exact Hc|lia]).
  - destruct (w !! d) as [[]|]; try discriminate.
    destruct (futures r !! d) as [[]|]; try discriminate;
      injection Hstep as <-; split; assumption.
  - destruct (w !! d) as [[]|]; try discriminate. injection Hstep as <-.
    cbn [relay]. unfold wait_for_expired.
    destruct (resolve_fields d FCancelled r) as (_ & _ & _ & -> & -> & _).
    split; assumption.
  - destruct (w !! d) as [[]|]; try discriminate. injection Hstep as <-.
    cbn [relay]. fold_on_timeout d r.
    destruct (on_timeout_fields d r) as (-> & _ & ->).
    split; [|exact Hid]. apply lookup_delete_None. right. exact Hc.
Qed.

(** When a call ends, by returning what the peer answered or through its
    [except] clause, its entry is gone. *)
Lemma call_ends_without_entry s c s' :
  consistent s ->
  step s (Returns c) = Some s' \/ step s (TimesOut c) = Some s' ->
  pending_commands (relay s') !! c = None /\ waiters s' !! c = None.
Proof.
  destruct s as [r w]. intros (_ & Htable & _) [Hstep|Hstep];
    cbn [step relay waiters] in *.
  - destruct (w !! c) as [[]|] eqn:Ew; try discriminate.
    assert (Hgone : pending_commands r !! c = None).
    { destruct (pending_commands r !! c) as [fut|] eqn:Ep; [|reflexivity].
      destruct (Htable c fut Ep) as [_ [Hx|[_ Hx]]]; [|congruence].
      rewrite Hx in Hstep. discriminate. }
    destruct (futures r !! c) as [[]|]; try discriminate;
      injection Hstep as <-; cbn [relay waiters];
      (split; [exact Hgone|apply lookup_delete_eq]).
  - destruct (w !! c) as [[]|] eqn:Ew; try discriminate.
    injection Hstep as <-. cbn [relay waiters]. fold_on_timeout c r.
    split; [apply on_timeout_removes|apply lookup_delete_eq].
Qed.

(** A parked call can always go through its deadline, and then its entry
    is gone. *)
Lemma waiting_call_times_out s c :
  waiters s !! c = Some Waiting ->
  exists s1 s2,
    step s (Deadline c) = Some s1
    /\ step s1 (TimesOut c) = Some s2
    /\ pending_commands (relay s2) !! c = None.
Proof.
  destruct s as [r w]. cbn [waiters]. intros Hw.
  eexists _, _. cbn [step relay waiters]. rewrite Hw.
  split; [reflexivity|]. cbn [waiters]. rewrite lookup_insert_eq.
  split; [reflexivity|]. cbn [relay].
  apply (on_timeout_removes c (wait_for_expired c r)).
Qed.

(** An entry that no parked call stands behind stays where it is unless a
    frame from the peer takes it: no deadline is set for it. *)
Lemma entry_without_call_stays s ev s' c fut :
  pending_commands (relay s) !! c = Some fut ->
  waiters s !! c = None ->
  (c <= command_id (relay s))%Z ->
  is_delivery ev = false ->
  step s ev = Some s' ->
  pending_commands (relay s') !! c = Some fut
  /\ waiters s' !! c = None
  /\ (c <= command_id (relay s'))%Z.
Proof.
  destruct s as [r w]. intros Hc Hw Hid Hev Hstep. cbn [relay waiters] in *.
  destruct ev as [bind_ok| |[ws path|[data|]|ws]|method params raises|d|d|d];
    try discriminate Hev;
    cbn [step relay waiters peer_step _handle_message] in Hstep.
  - injection Hstep as <-. cbn [relay waiters].
    unfold start. destruct (_running r), bind_ok; repeat split; assumption.
  - injection Hstep as <-. repeat split; assumption.
  - destruct (server r); [|discriminate]. injection Hstep as <-.
    cbn [relay waiters].
    unfold connection_opened. destruct (negb _); repeat split; assumption.
  - injection Hstep as <-. cbn [relay waiters].
    unfold connection_closed. case_bool_decide; repeat split; assumption.
  - unfold send_command_begin in Hstep.
    destruct (extension_ws r) as [ws|];
      [|injection Hstep as <-; repeat split; assumption].
    destruct raises; injection Hstep as <-;
      cbn [relay waiters pending_commands command_id with_send_call];
      rewrite ?lookup_insert_ne by lia; repeat split; try assumption; lia.
  - destruct (w !! d) as [[]|] eqn:Ew; try discriminate.
    assert (d <> c) by congruence.
    destruct (futures r !! d) as [[]|]; try discriminate;
      injection Hstep as <-; cbn [relay waiters];
      rewrite lookup_delete_ne by assumption; repeat split; assumption.
  - destruct (w !! d) as [[]|] eqn:Ew; try discriminate.
    assert (d <> c) by congruence.
    injection Hstep as <-. cbn [relay waiters]. unfold wait_for_expired.
    destruct (resolve_fields d FCancelled r) as (_ & _ & _ & -> & -> & _).
    rewrite lookup_insert_ne by assumption. repeat split; assumption.
  - destruct (w !! d) as [[]|] eqn:Ew; try discriminate.
    assert (d <> c) by congruence.
    injection Hstep as <-. cbn [relay waiters]. fold_on_timeout d r.
    destruct (on_timeout_fields d r) as (-> & _ & ->).
    rewrite !lookup_delete_ne by assumption. repeat split; assumption.
Qed.

Lemma entry_without_call_stays_run evs s s' c fut :
  pending_commands (relay s) !! c = Some fut ->
  waiters s !! c = None ->
  (c <= command_id (relay s))%Z ->
  forallb (fun ev => negb (is_delivery ev)) evs = true ->
  run s evs = Some s' ->
  pending_commands (relay s') !! c = Some fut /\ waiters s' !! c = None.
Proof.
  revert s. induction evs as [|ev evs IH]; intros s Hc Hw Hid Hevs; cbn [run].
  - intros [= <-]. split; assumption.
  - cbn [forallb] in Hevs. apply andb_true_iff in Hevs as [Hev Hevs].
    apply negb_true_iff in Hev.
    destruct (step s ev) as [s1|] eqn:E; [|discriminate].
    destruct (entry_without_call_stays s ev s1 c fut Hc Hw Hid Hev E)
      as (Hc1 & Hw1 & Hid1).
    apply IH; assumption.
Qed.

Lemma handle_data_keeps_peer data (r : BrowserRelay) :
  extension_ws (fst (handle_data data r)) = extension_ws r
  /\ server (fst (handle_data data r)) = server r.
Proof.
  destruct (handle_data_shape data r)
    as [-> | [(ws & _ & ->) | (c0 & fut & o & _ & _ & ->)]];
    [split; reflexivity | split; reflexivity |].
  destruct (resolve_fields fut o
              (with_pending_commands (delete c0 (pending_commands r)) r))
    as (_ & -> & -> & _).
  split; reflexivity.
Qed.

(** A relay that is not listening has no peer: connections come in only
    through the server that [start] binds. *)
Lemma peer_needs_server_step s ev s' :
  (server (relay s) = false -> extension_ws (relay s) = None) ->
  step s ev = Some s' ->
  server (relay s') = false -> extension_ws (relay s') = None.
Proof.
  destruct s as [r w]. cbn [relay]. intros Hs Hstep.
  destruct ev as [bind_ok| |[ws path|[data|]|ws]|method params raises|d|d|d];
    cbn [step relay waiters peer_step _handle_message] in Hstep.
  - injection Hstep as <-. cbn [relay]. unfold start.
    destruct (_running r), bind_ok; cbn; try exact Hs; discriminate.
  - injection Hstep as <-. exact Hs.
  - destruct (server r) eqn:Es; [|discriminate]. injection Hstep as <-.
    cbn [relay]. unfold connection_opened. destruct (negb _); cbn;
      rewrite Es; discriminate.
  - injection Hstep as <-. cbn [relay].
    destruct (handle_data_keeps_peer data r) as [-> ->]. exact Hs.
  - injection Hstep as <-. exact Hs.
  - injection Hstep as <-. cbn [relay]. unfold connection_closed.
    case_bool_decide; [reflexivity|exact Hs].
  - unfold send_command_begin in Hstep.
    destruct (extension_ws r) as [ws|] eqn:Ews;
      [|injection Hstep as <-; cbn [relay]; rewrite Ews; reflexivity].
    destruct raises; injection Hstep as <-; cbn; intros Hsrv;
      specialize (Hs Hsrv); discriminate.
  - destruct (w !! d) as [[]|]; try discriminate.
    destruct (futures r !! d) as [[]|]; try discriminate;
      injection Hstep as <-; exact Hs.
  - destruct (w !! d) as [[]|]; try discriminate. injection Hstep as <-.
    cbn [relay]. unfold wait_for_expired.
    destruct (resolve_fields d FCancelled r) as (_ & -> & -> & _). exact Hs.
  - destruct (w !! d) as [[]|]; try discriminate. injection Hstep as <-.
    cbn [relay]. unfold on_timeout. cbn [fst].
    destruct (pending_commands r !! d); exact Hs.
Qed.

Lemma peer_needs_server evs s s' :
  (server (relay s) = false -> extension_ws (relay s) = None) ->
  run s evs = Some s' ->
  server (relay s') = false -> extension_ws (relay s') = None.
Proof.
  revert s. induction evs as [|ev evs IH]; intros s Hs; cbn [run].
  - intros [= <-]. exact Hs.
  - destruct (step s ev) as [s1|] eqn:E; [|discriminate].
    apply IH. eapply peer_needs_server_step; eassumption.
Qed.

End Scheduler.

Section SchedulerExamples.
Import Browser Peers.

(** C4, at the input where the code leaves it. The relay listens, the
    extension is connected, and [send] raises for the first command. The id
    1 has been handed out and its entry made, with a pending future; the
    call has ended with the exception of [send] and is not parked, so no
    deadline and no [except] clause will come for it; and whatever happens
    next, short of a frame from the peer, the entry is still in the table:
    it is neither resolved nor removed. *)
Theorem send_failure_orphans_pending_entry :
  exists s,
    run initial send_fails = Some s
    /\ command_id (relay s) = 1%Z
    /\ pending_commands (relay s) !! 1%Z = Some 1%Z
    /\ futures (relay s) !! 1%Z = Some FPending
    /\ waiters s = ∅
    /\ step s (Returns 1) = None
    /\ step s (Deadline 1) = None
    /\ step s (TimesOut 1) = None
    /\ (forall evs s',
          forallb (fun ev => negb (is_delivery ev)) evs = true ->
          run s evs = Some s' ->
          pending_commands (relay s') !! 1%Z = Some 1%Z
          /\ waiters s' !! 1%Z = None).
Proof.
  eexists. split; [vm_compute; reflexivity|].
  split; [reflexivity|]. split; [reflexivity|]. split; [reflexivity|].
  split; [reflexivity|]. split; [reflexivity|]. split; [reflexivity|].
  split; [reflexivity|].
  intros evs s' Hevs Hrun.
  eapply entry_without_call_stays_run; [| | |exact Hevs|exact Hrun].
  - reflexivity.
  - reflexivity.
  - cbn. lia.
Qed.

End SchedulerExamples.

(** ** The browser tool *)

Section ToolFacts.
Import Browser.
Context `{PyRepr}.

Lemma send_command_not_connected method params env (self : BrowserRelay) :
  extension_ws self = None ->
  send_command method params env self = (self, Raise not_connected).
Proof.
  intros Hws. unfold send_command, send_command_begin. rewrite Hws. reflexivity.
Qed.

Lemma start_keeps_peer bind_ok (self : BrowserRelay) :
  extension_ws (start bind_ok self) = extension_ws self.
Proof. unfold start. destruct (_running self), bind_ok; reflexivity. Qed.

(** C6. A command sent while no peer is set raises the [RuntimeError] whose
    text says that the extension is not connected, and the relay is as
    before: no id is taken and no entry is made. [start] never sets a
    peer, so a relay whose bind failed is in that case (and is not
    running), and so is every relay the scheduler reaches that is not
    listening. [execute] never raises: when its body raises [e] the result
    is the text [Error executing <action>: <e>]; so a [screenshot] or a
    [read], and a [navigate] with a url, made with no peer return that
    text for the not-connected error and leave the relay unchanged. *)
Theorem disconnected_command_fails_and_tool_never_raises :
  (forall (self : BrowserRelay) method params env,
      extension_ws self = None ->
      send_command method params env self = (self, Raise not_connected))
  /\ exn_cls not_connected = RuntimeError
  /\ str_contains "not connected" (exn_str not_connected) = true
  /\ (forall bind_ok self, extension_ws (start bind_ok self) = extension_ws self)
  /\ extension_ws (start false new_relay) = None
  /\ _running (start false new_relay) = false
  /\ (forall evs s method params env,
        run initial evs = Some s ->
        server (relay s) = false ->
        send_command method params env (relay s)
          = (relay s, Raise not_connected))
  /\ (forall action kwargs env self,
        exists text,
          snd (execute action kwargs env self) = Ok text
          /\ fst (execute action kwargs env self)
             = fst (execute_body action kwargs env self)
          /\ (forall e,
                snd (execute_body action kwargs env self) = Raise e ->
                text = "Error executing " +:+ action +:+ ": " +:+ exn_str e))
  /\ (forall (self : BrowserRelay) kwargs env,
        extension_ws self = None ->
        execute "screenshot" kwargs env self
          = (self, Ok ("Error executing screenshot: " +:+ exn_str not_connected))
        /\ execute "read" kwargs env self
           = (self, Ok ("Error executing read: " +:+ exn_str not_connected))
        /\ (forall url, url <> "" -> kwargs !! "url" = Some (JStr url) ->
            execute "navigate" kwargs env self
              = (self, Ok ("Error executing navigate: "
                             +:+ exn_str not_connected)))).
Proof.
  split; [intros; apply send_command_not_connected; assumption|].
  split; [reflexivity|]. split; [reflexivity|].
  split; [exact start_keeps_peer|]. split; [reflexivity|]. split; [reflexivity|].
  split.
  { intros evs s method params env Hrun Hsrv.
    apply send_command_not_connected.
    exact (peer_needs_server evs initial s (fun _ => eq_refl) Hrun Hsrv). }
  split.
  - intros action kwargs env self. unfold execute.
    destruct (execute_body action kwargs env self) as [self' [text|e]];
      cbn [fst snd].
    + exists text. repeat split. intros e [=].
    + eexists. repeat split. intros e' [= <-]. reflexivity.
  - intros self kwargs env Hws. split; [|split].
    + unfold execute, execute_body.
      change (String.eqb "screenshot" "navigate") with false.
      change (String.eqb "screenshot" "click") with false.
      change (String.eqb "screenshot" "type") with false.
      change (String.eqb "screenshot" "read") with false.
      change (String.eqb "screenshot" "screenshot") with true. cbv iota.
      rewrite send_command_not_connected by exact Hws. reflexivity.
    + unfold execute, execute_body.
      change (String.eqb "read" "navigate") with false.
      change (String.eqb "read" "click") with false.
      change (String.eqb "read" "type") with false.
      change (String.eqb "read" "read") with true. cbv iota.
      rewrite send_command_not_connected by exact Hws. reflexivity.
    + intros url Hne Hurl. unfold execute, execute_body.
      change (String.eqb "navigate" "navigate") with true. cbv iota.
      unfold kwargs_get. rewrite Hurl. cbn [default from_option id py_truthy].
      destruct url as [|c url]; [congruence|]. cbn [str_truthy negb].
      rewrite send_command_not_connected by exact Hws. reflexivity.
Qed.

End ToolFacts.

(** ** The [read] and [navigate] actions *)

Section Actions.
Import Browser.
Context `{PyRepr}.

(** C7. When the command of a [read] action comes back with a reply that
    has no [exceptionDetails] and whose value is a text, the action returns
    the text cut to 2000 characters: for a longer text exactly its first
    2000 characters, for a text of at most 2000 characters all of it. *)
Theorem read_returns_first_2000_characters
    kwargs env (self self' : BrowserRelay) res text :
  send_command "Runtime.evaluate"
    (read_params (kwargs_get kwargs "selector" (JStr "body")))
    (relay_env env) self = (self', Ok res) ->
  has_exception_details res = Ok false ->
  result_value res = Ok (JStr text) ->
  exists out,
    execute "read" kwargs env self = (self', Ok out)
    /\ out = slice_to 2000 text
    /\ (2000 < String.length text ->
        String.length out = 2000 /\ exists rest, text = out +:+ rest)
    /\ (String.length text <= 2000 -> out = text).
Proof.
  intros Hsend Hdetails Hvalue.
  exists (slice_to 2000 text). split; [|split; [reflexivity|split]].
  - unfold execute, execute_body.
    change (String.eqb "read" "navigate") with false.
    change (String.eqb "read" "click") with false.
    change (String.eqb "read" "type") with false.
    change (String.eqb "read" "read") with true. cbv iota.
    rewrite Hsend. unfold check_reply. rewrite Hdetails, Hvalue. reflexivity.
  - intros Hlong. split.
    + rewrite slice_to_length. apply Nat.min_l. apply Nat.lt_le_incl, Hlong.
    + apply slice_to_prefix.
  - apply slice_to_all.
Qed.

(** What [navigate] sends. When its [url] is a non-empty text and a peer is
    set, it puts exactly one envelope among the calls of [send]: a
    [Page.navigate] command with the next id, whose url is the argument
    itself when that starts with the four characters [http], and the
    argument with [https://] in front of it otherwise. The test is on those
    characters, not on the presence of a scheme. *)
Lemma navigate_prefixes_unless_http
    kwargs env (self : BrowserRelay) ws url :
  kwargs !! "url" = Some (JStr url) ->
  url <> "" ->
  extension_ws self = Some ws ->
  commands_sent (fst (execute "navigate" kwargs env self))
  = commands_sent self
      ++ [(ws, payload (command_id self + 1) "Page.navigate"
                 (JObj {[ "url" :=
                            JStr (if startswith url "http" then url
                                  else "https://" +:+ url) ]}))].
Proof.
  intros Hurl Hne Hws.
  pose proof (send_command_one_envelope "Page.navigate" (navigate_params url)
                (relay_env env) self ws Hws) as Hone.
  unfold execute, execute_body.
  change (String.eqb "navigate" "navigate") with true. cbv iota.
  unfold kwargs_get. rewrite Hurl. cbn [default from_option id py_truthy].
  destruct url as [|c url]; [congruence|]. cbn [str_truthy negb].
  destruct (send_command _ _ _ _) as [self' [v|e]]; exact Hone.
Qed.

End Actions.

Section ActionsExamples.
Import Browser Peers.

(** The specification's example: a body of 5000 characters. *)
Lemma read_returns_first_2000_characters_witness :
  exists self' out,
    execute "read" ∅ (tool_env (answers (evaluated (JStr body_5000)))) connected
      = (self', Ok out)
    /\ String.length out = 2000
    /\ out = chars 2000 "a".
Proof.
  destruct (read_returns_first_2000_characters
              ∅ (tool_env (answers (evaluated (JStr body_5000)))) connected
              (fst (send_command "Runtime.evaluate" (read_params (JStr "body"))
                      (answers (evaluated (JStr body_5000))) connected))
              (evaluated (JStr body_5000)) body_5000)
    as (out & Hexec & Hout & Hlong & _).
  - vm_compute. reflexivity.
  - vm_compute. reflexivity.
  - vm_compute. reflexivity.
  - eexists _, out. split; [exact Hexec|]. split.
    + apply Hlong. apply Nat.ltb_lt. vm_compute. reflexivity.
    + rewrite Hout. vm_compute. reflexivity.
Defined.

Lemma navigate_prefixes_unless_http_witness :
  commands_sent
    (fst (execute "navigate" (to_url "example.com") (tool_env silent) connected))
  = [(0, payload 1 "Page.navigate" (JObj {[ "url" := JStr "https://example.com" ]}))].
Proof.
  apply (navigate_prefixes_unless_http
           (to_url "example.com") (tool_env silent) connected 0 "example.com").
  - reflexivity.
  - discriminate.
  - reflexivity.
Defined.

(** C8. The claim has [https://] put in front of a url that lacks a scheme.
    The code does not do that for every such url: [httpbin.org/get] has no
    scheme, and the one [Page.navigate] command sent for it carries
    [httpbin.org/get] itself, because the test of browser.py, line 209, is
    [url.startswith("http")]. The same test puts [https://] in front of a
    url that has a scheme other than http: [ftp://example.com/notes.txt] is
    sent as [https://ftp://example.com/notes.txt]. (With no peer nothing is
    sent at all.) *)
Theorem navigate_ignores_the_scheme :
  (Uri.has_scheme "ftp://example.com/notes.txt" = true
   /\ navigate_url "ftp://example.com/notes.txt" <> "ftp://example.com/notes.txt"
   /\ commands_sent
        (fst (execute "navigate" (to_url "ftp://example.com/notes.txt")
                (tool_env silent) connected))
      = [(0, payload 1 "Page.navigate"
               (JObj {[ "url" := JStr "https://ftp://example.com/notes.txt" ]}))])
  /\ (Uri.has_scheme "httpbin.org/get" = false
      /\ navigate_url "httpbin.org/get" <> "https://httpbin.org/get"
      /\ commands_sent
           (fst (execute "navigate" (to_url "httpbin.org/get")
                   (tool_env silent) connected))
         = [(0, payload 1 "Page.navigate"
                  (JObj {[ "url" := JStr "httpbin.org/get" ]}))])
  /\ commands_sent
       (fst (execute "navigate" (to_url "example.com") (tool_env silent)
               new_relay))
     = [].
Proof.
  split; [|split].
  - split; [reflexivity|]. split; [discriminate|]. vm_compute. reflexivity.
  - split; [reflexivity|]. split; [discriminate|]. vm_compute. reflexivity.
  - vm_compute. reflexivity.
Qed.

End ActionsExamples.

(** * Further properties *)

(** ** The agent loop: failures, sessions and the transcript *)

Section LoopExtras.
Import Loop.
Context `{Collaborators}.

Lemma agent_loop_provider_failure fuel bound w l calls w' e :
  (iteration l < bound)%Z ->
  chat w (messages l) = (w', Raise e) ->
  agent_loop (S fuel) bound w l calls =
    Some (w',
          {| iteration := iteration l + 1;
             final_content := Some ("Error calling LLM: " +:+ exn_str e);
             tool_calls := tool_calls l;
             media_from_tool_results := media_from_tool_results l;
             messages := messages l |},
          S calls).
Proof.
  intros Hlt Hchat. cbn [agent_loop].
  apply Z.ltb_lt in Hlt. rewrite Hlt, Hchat. reflexivity.
Qed.

(** X1. When the first call of the provider raises, no second call is made;
    the outbound message carries [Error calling LLM: <e>], and that text is
    saved as the assistant turn after the user turn. *)
Theorem provider_failure_answered_and_saved
    (self : AgentLoop) (msg : InboundMessage) w' e :
  channel msg <> "system" ->
  (0 < max_iterations self)%Z ->
  first_reply self msg = (w', Raise e) ->
  exists p,
    _process_message self msg = Some p
    /\ model_calls p = 1
    /\ world (self_after p) = w'
    /\ returned p =
         Ok (Some {| out_channel := channel msg; out_chat_id := chat_id msg;
                     out_content := Some ("Error calling LLM: " +:+ exn_str e);
                     out_media := [] |})
    /\ sessions (self_after p) =
         <[session_key msg :=
             default [] (sessions self !! session_key msg)
               ++ [user_turn msg;
                   assistant_turn ("Error calling LLM: " +:+ exn_str e)]]>
           (sessions self).
Proof.
  intros Hch Hpos Hchat. unfold _process_message.
  apply String.eqb_neq in Hch. rewrite Hch.
  destruct (Z.to_nat (max_iterations self)) as [|fuel] eqn:Efuel; [lia|].
  unfold first_reply in Hchat.
  assert (Hlt : (iteration (initial_locals self msg) < max_iterations self)%Z)
    by (simpl; lia).
  rewrite (agent_loop_provider_failure fuel _ _ _ 0 w' e Hlt Hchat).
  eexists. split; [reflexivity|].
  cbn [model_calls returned self_after sessions world final_content tool_calls
       media_from_tool_results initial_locals truthy].
  split; [reflexivity|]. split; [reflexivity|].
  change (str_truthy ("Error calling LLM: " +:+ exn_str e)) with true.
  cbv iota. split; [reflexivity|].
  rewrite add_message_new_session. apply add_message_twice.
Qed.

Lemma get_or_create_other key k (ss : gmap string (list Turn)) :
  k <> key -> get_or_create key ss !! k = ss !! k.
Proof.
  intros Hne. unfold get_or_create. destruct (ss !! key); [reflexivity|].
  apply lookup_insert_ne. congruence.
Qed.

(** X2. Whatever the provider and the tools do, a message that is not a
    system announcement changes the session store in one place only: the
    session of its key is the history it had, then the user turn, then the
    assistant turn for the final answer if one was recorded and is not
    empty. The tool calls and results of the transcript are not saved, and
    no other session is touched. *)
Theorem session_gets_user_turn_and_final_answer
    (self : AgentLoop) (msg : InboundMessage) :
  channel msg <> "system" ->
  exists p l,
    _process_message self msg = Some p
    /\ locals_after p = Some l
    /\ max_iterations (self_after p) = max_iterations self
    /\ (forall k, k <> session_key msg ->
          sessions (self_after p) !! k = sessions self !! k)
    /\ sessions (self_after p) !! session_key msg =
         Some (default [] (sessions self !! session_key msg)
                 ++ user_turn msg
                    :: match final_content l with
                       | Some text =>
                           if str_truthy text then [assistant_turn text] else []
                       | None => []
                       end).
Proof.
  intros Hch. unfold _process_message.
  apply String.eqb_neq in Hch. rewrite Hch.
  destruct (agent_loop_returns (Z.to_nat (max_iterations self))
              (max_iterations self)
              (set_tool_contexts (world self) (channel msg) (chat_id msg))
              (initial_locals self msg) 0) as [[[w' l] calls] Hrun];
    [simpl; lia|].
  rewrite Hrun. eexists. exists l. split; [reflexivity|].
  cbn [locals_after self_after max_iterations sessions].
  split; [reflexivity|]. split; [reflexivity|].
  rewrite add_message_new_session. split.
  - intros k Hk.
    assert (Hbase : (<[session_key msg :=
                        default [] (sessions self !! session_key msg)
                          ++ [user_turn msg]]> (sessions self)) !! k
                    = sessions self !! k)
      by (apply lookup_insert_ne; congruence).
    destruct (final_content l) as [text|]; [|exact Hbase].
    destruct (str_truthy text); [|exact Hbase].
    rewrite add_message_other by exact Hk. exact Hbase.
  - destruct (final_content l) as [text|]; [|apply lookup_insert_eq].
    destruct (str_truthy text); [|apply lookup_insert_eq].
    rewrite add_message_twice. apply lookup_insert_eq.
Qed.

(** X3. The tool calls of a reply put one tool-result entry each on the
    transcript, after what was there, in the order of the calls and under
    the ids of the calls. The calls are made one after the other: the
    first in the world the loop is in, each later one in the world its
    predecessor left, and the last leaves the world the loop goes on in.
    The text of the entry of a call is what that very call returned, or
    [Error: <e>] when it raised [e]: a tool that raises does not stop the
    ones after it. *)
Theorem execute_tools_one_result_per_call
    w (tcs : list ToolCall) msgs paths w' msgs' paths' :
  execute_tools w tcs msgs paths = (w', msgs', paths') ->
  exists (texts : list string) (worlds : list World),
    length texts = length tcs
    /\ length worlds = S (length tcs)
    /\ worlds !! 0%nat = Some w
    /\ worlds !! length tcs = Some w'
    /\ msgs' = msgs ++ zip_with ToolResult (map tc_id tcs) texts
    /\ forall (i : nat) tc,
         tcs !! i = Some tc ->
         exists before after text,
           worlds !! i = Some before
           /\ worlds !! S i = Some after
           /\ texts !! i = Some text
           /\ (tools_execute before (tc_name tc) (tc_arguments tc)
                = (after, Ok text)
               \/ exists e,
                    tools_execute before (tc_name tc) (tc_arguments tc)
                      = (after, Raise e)
                    /\ text = "Error: " +:+ exn_str e).
Proof.
  revert w msgs paths.
  induction tcs as [|tc tcs IH]; intros w msgs paths; cbn [execute_tools].
  - intros [= <- <- <-]. exists [], [w].
    split; [reflexivity|]. split; [reflexivity|].
    split; [reflexivity|]. split; [reflexivity|]. split.
    + cbn. rewrite app_nil_r. reflexivity.
    + intros i tc' Hi. rewrite lookup_nil in Hi. discriminate.
  - destruct (tools_execute w (tc_name tc) (tc_arguments tc)) as [w1 r] eqn:Et.
    assert (Hstep : exists text paths1,
              match r with
              | Ok res =>
                  if String.eqb (tc_name tc) "browser_use"
                     && startswith res screenshot_marker
                  then (res, paths ++ [strip (replace screenshot_marker "" res)])
                  else (res, paths)
              | Raise e => ("Error: " +:+ exn_str e, paths)
              end = (text, paths1)
              /\ (r = Ok text
                  \/ exists e, r = Raise e /\ text = "Error: " +:+ exn_str e)).
    { destruct r as [res|e].
      - destruct (_ && _); eexists _, _; split; try reflexivity; left;
          reflexivity.
      - eexists _, _. split; [reflexivity|]. right. eauto. }
    destruct Hstep as (text & paths1 & -> & Hr).
    intros Hrest.
    destruct (IH _ _ _ Hrest)
      as (texts & worlds & Hlen & Hworlds & Hfirst & Hlast & -> & Hall).
    exists (text :: texts), (w :: worlds).
    split; [cbn; lia|]. split; [cbn; lia|].
    split; [reflexivity|]. split; [exact Hlast|]. split.
    + cbn. rewrite <- app_assoc. reflexivity.
    + intros [|i] tc' Hi.
      * cbn in Hi. injection Hi as <-.
        exists w, w1, text. split; [reflexivity|]. split; [exact Hfirst|].
        split; [reflexivity|].
        destruct Hr as [->|(e & -> & ->)]; eauto.
      * cbn in Hi. destruct (Hall i tc' Hi)
          as (before & after & text' & Hb & Ha & Ht & Hcall).
        exists before, after, text'. repeat split; assumption.
Qed.

(** X4. Only calls to the tool named [browser_use] can add to the media of
    the outbound message: the media found before stay, in place, and at
    most one path is added per such call. *)
Theorem media_only_from_browser_calls
    w (tcs : list ToolCall) msgs paths w' msgs' paths' :
  execute_tools w tcs msgs paths = (w', msgs', paths') ->
  exists added,
    paths' = paths ++ added
    /\ length added <= length (filter (fun tc => is_browser_call tc = true) tcs).
Proof.
  revert w msgs paths.
  induction tcs as [|tc tcs IH]; intros w msgs paths; cbn [execute_tools].
  - intros [= <- <- <-]. exists []. split; [by rewrite app_nil_r|cbn; lia].
  - destruct (tools_execute w (tc_name tc) (tc_arguments tc)) as [w1 r].
    assert (Hgrow : forall n,
              n <= length (filter (fun tc => is_browser_call tc = true) tcs) ->
              n <= length (filter (fun tc => is_browser_call tc = true)
                             (tc :: tcs))).
    { intros n Hn. rewrite filter_cons. destruct (decide _); cbn; lia. }
    destruct r as [res|e].
    + destruct (String.eqb (tc_name tc) "browser_use") eqn:En; cbn [andb].
      * destruct (startswith res screenshot_marker).
        -- intros Hrest. destruct (IH _ _ _ Hrest) as (added & -> & Hlen).
           eexists (_ :: added). rewrite <- app_assoc. split; [reflexivity|].
           rewrite filter_cons_True by exact En. cbn. lia.
        -- intros Hrest. destruct (IH _ _ _ Hrest) as (added & -> & Hlen).
           exists added. split; [reflexivity|]. apply Hgrow, Hlen.
      * intros Hrest. destruct (IH _ _ _ Hrest) as (added & -> & Hlen).
        exists added. split; [reflexivity|]. apply Hgrow, Hlen.
    + intros Hrest. destruct (IH _ _ _ Hrest) as (added & -> & Hlen).
      exists added. split; [reflexivity|]. apply Hgrow, Hlen.
Qed.

End LoopExtras.

(** ** From the screenshot action to the media of the reply *)

Section ScreenshotPaths.
Import Loop.

Lemma prefix_app m p : String.prefix m (m +:+ p) = true.
Proof.
  induction m as [|c m IH]; [destruct p; reflexivity|].
  change (String c m +:+ p) with (String c (m +:+ p)). cbn [String.prefix].
  destruct (ascii_dec c c); [exact IH|congruence].
Qed.

Lemma replace_from_skip old new a s :
  replace_from old new (String.length a) (a +:+ s) = replace_from old new 0 s.
Proof.
  induction a as [|c a IH]; [reflexivity|].
  change (String c a +:+ s) with (String c (a +:+ s)).
  cbn [String.length replace_from]. exact IH.
Qed.

Lemma replace_head old new s :
  old <> "" -> replace old new (old +:+ s) = new +:+ replace old new s.
Proof.
  intros Hne. destruct old as [|c old]; [congruence|].
  unfold replace.
  change (String c old +:+ s) with (String c (old +:+ s)).
  cbn [replace_from].
  change (String c (old +:+ s)) with (String c old +:+ s).
  rewrite prefix_app. cbn [String.length]. rewrite Nat.sub_1_r.
  cbn [Nat.pred]. rewrite replace_from_skip. reflexivity.
Qed.

Lemma replace_absent old new s :
  str_contains old s = false -> replace old new s = s.
Proof.
  unfold replace. induction s as [|c s IH]; [reflexivity|].
  cbn [str_contains]. intros Hno. apply orb_false_iff in Hno as [Hp Hrest].
  cbn [replace_from]. rewrite Hp. rewrite IH by exact Hrest. reflexivity.
Qed.

Context `{Collaborators}.

(** X5. The text the screenshot action returns, [Screenshot saved to
    <path>], is taken apart again by the loop: when a call to [browser_use]
    returns it, the path is added to the media, provided the path has no
    white space at its ends and does not itself contain the marker (the
    loop strips the one and deletes every occurrence of the other). *)
Theorem screenshot_path_reaches_media
    w w' (tc : ToolCall) msgs paths path :
  tc_name tc = "browser_use" ->
  tools_execute w (tc_name tc) (tc_arguments tc)
    = (w', Ok ("Screenshot saved to " +:+ path)) ->
  str_contains "Screenshot saved to " path = false ->
  strip path = path ->
  execute_tools w [tc] msgs paths
  = (w', msgs ++ [ToolResult (tc_id tc) ("Screenshot saved to " +:+ path)],
     paths ++ [path]).
Proof.
  intros Hname Hexec Hclean Hstrip. cbn [execute_tools].
  rewrite Hexec, Hname.
  change (String.eqb "browser_use" "browser_use") with true. cbn [andb].
  unfold startswith, screenshot_marker. rewrite prefix_app.
  rewrite replace_head by discriminate.
  rewrite replace_absent by exact Hclean.
  change ("" +:+ path) with path. rewrite Hstrip. reflexivity.
Qed.

End ScreenshotPaths.

Section ScreenshotPathsExamples.
Import Loop Scripted Shots.

Lemma screenshot_path_reaches_media_witness :
  @execute_tools _ collaborators [] [shot_call] [] []
  = ([], [ToolResult "call_1" shot_text], ["/workspace/screenshot_0.png"]).
Proof.
  apply (@screenshot_path_reaches_media _ collaborators
           [] [] shot_call [] [] "/workspace/screenshot_0.png").
  - reflexivity.
  - reflexivity.
  - reflexivity.
  - reflexivity.
Defined.

End ScreenshotPathsExamples.

(** ** [run]: what the loop publishes *)

Section RunLoop.
Import Loop.
Context `{Collaborators}.

(** A message that is not a system announcement is answered, or its
    processing raises; it is never dropped. *)
Lemma process_message_answers (self : AgentLoop) (msg : InboundMessage) p :
  channel msg <> "system" ->
  _process_message self msg = Some p ->
  (exists out, returned p = Ok (Some out)
               /\ out_channel out = channel msg
               /\ out_chat_id out = chat_id msg)
  \/ (exists e, returned p = Raise e).
Proof.
  intros Hch. unfold _process_message.
  apply String.eqb_neq in Hch. rewrite Hch.
  destruct (agent_loop _ _ _ _ _) as [[[w' l] calls]|]; [|discriminate].
  intros [= <-]. cbn [returned].
  destruct (truthy (final_content l)); [left; eexists; repeat split|].
  destruct (tool_calls l) as [[|tc tcs]|];
    [left; eexists; repeat split | left; eexists; repeat split | right; eauto].
Qed.

Lemma process_system_message_keeps_self (self : AgentLoop) (msg : InboundMessage) p :
  channel msg = "system" ->
  _process_message self msg = Some p ->
  self_after p = self
  /\ (returned p = Ok None \/ exists out, returned p = Ok (Some out)).
Proof.
  intros Hch. unfold _process_message. rewrite Hch.
  change (String.eqb "system" "system") with true. cbv iota.
  intros [= <-]. cbn [self_after returned]. split; [reflexivity|].
  unfold _process_system_message.
  destruct (split ":" 2 (content msg)) as [|a [|b [|c [|d rest]]]]; eauto.
Qed.

(** What one turn of [run] adds to the messages [run] has published
    itself: for a message that is not a system announcement, one message,
    to the channel and chat the message came from. *)
Lemma run_iteration_shape d (self : AgentLoop) published :
  exists self' published',
    run_iteration d self published = Some (self', published')
    /\ match d with
       | TimedOut => self' = self /\ published' = published
       | Dequeued msg =>
           if String.eqb (channel msg) "system"
           then self' = self
                /\ (published' = published
                    \/ exists m, published' = published ++ [m])
           else exists m, published' = published ++ [m]
                          /\ out_channel m = channel msg
                          /\ out_chat_id m = chat_id msg
       end.
Proof.
  destruct d as [|msg]; cbn [run_iteration]; [eauto|].
  destruct (process_message_returns self msg) as [p Hp]. rewrite Hp.
  eexists _, _. split; [reflexivity|].
  destruct (String.eqb (channel msg) "system") eqn:Ech.
  - apply String.eqb_eq in Ech.
    destruct (process_system_message_keeps_self self msg p Ech Hp)
      as [Hself [Hr|[out Hr]]]; rewrite Hr; unfold publish_outbound; eauto.
  - apply String.eqb_neq in Ech.
    destruct (process_message_answers self msg p Ech Hp)
      as [(out & Hr & Hc & Hi)|[e Hr]]; rewrite Hr; unfold publish_outbound;
      eauto.
Qed.

(** X6. One turn of [run] never lets an exception out, and [run] itself
    calls [publish_outbound] at most once in it. ([published] is the record
    of those calls; what the message tool puts on the bus while the message
    is processed is not counted here.) A wait that times out changes
    nothing. For a message that is not a system announcement [run] makes
    exactly one such call, with an answer or with the apology for an error,
    addressed to the channel and chat the message came from. A system
    announcement leaves the loop object as it was. *)
Theorem run_iteration_one_outbound_per_message
    d (self : AgentLoop) (published : list OutboundMessage) :
  exists self' published',
    run_iteration d self published = Some (self', published')
    /\ (published' = published \/ exists m, published' = published ++ [m])
    /\ (d = TimedOut -> self' = self /\ published' = published)
    /\ (forall msg, d = Dequeued msg -> channel msg <> "system" ->
          exists m, published' = published ++ [m]
                    /\ out_channel m = channel msg
                    /\ out_chat_id m = chat_id msg)
    /\ (forall msg, d = Dequeued msg -> channel msg = "system" -> self' = self).
Proof.
  destruct (run_iteration_shape d self published)
    as (self' & published' & Hrun & Hd).
  exists self', published'. split; [exact Hrun|].
  destruct d as [|msg].
  - destruct Hd as [-> ->]. repeat split; auto; discriminate.
  - destruct (String.eqb (channel msg) "system") eqn:Ech.
    + apply String.eqb_eq in Ech. destruct Hd as [-> Hq].
      split; [exact Hq|]. split; [discriminate|]. split.
      * intros msg' [= <-] Hne. congruence.
      * intros msg' [= <-] _. reflexivity.
    + apply String.eqb_neq in Ech. destruct Hd as (m & -> & Hc & Hi).
      split; [eauto|]. split; [discriminate|]. split.
      * intros msg' [= <-] _. eauto.
      * intros msg' [= <-] Hsys. congruence.
Qed.

(** X7. With a turn budget of zero or less, a message that is not a system
    announcement makes no call of the provider; its user turn is saved;
    reading [tool_calls] raises, and [run] publishes the apology for that
    error to the sender. *)
Theorem zero_budget_answers_with_apology
    (self : AgentLoop) (msg : InboundMessage) (queue : list OutboundMessage) :
  (max_iterations self <= 0)%Z ->
  channel msg <> "system" ->
  exists p e,
    _process_message self msg = Some p
    /\ model_calls p = 0
    /\ returned p = Raise e
    /\ exn_cls e = UnboundLocalError
    /\ sessions (self_after p) =
         <[session_key msg :=
             default [] (sessions self !! session_key msg) ++ [user_turn msg]]>
           (sessions self)
    /\ run_iteration (Dequeued msg) self queue
       = Some (self_after p,
               queue ++ [ {| out_channel := channel msg;
                             out_chat_id := chat_id msg;
                             out_content :=
                               Some ("Sorry, I encountered an error: "
                                       +:+ exn_str e);
                             out_media := [] |} ]).
Proof.
  intros Hzero Hch. cbn [run_iteration]. unfold _process_message.
  apply String.eqb_neq in Hch. rewrite Hch.
  assert (Hloop : forall fuel w l calls,
            (iteration l = 0)%Z ->
            agent_loop fuel (max_iterations self) w l calls = Some (w, l, calls)).
  { intros fuel w l calls Hit. destruct fuel; cbn [agent_loop];
      replace (iteration l <? max_iterations self)%Z with false
        by (symmetry; apply Z.ltb_ge; lia); reflexivity. }
  rewrite Hloop by reflexivity.
  eexists _, _. split; [reflexivity|].
  cbn [model_calls returned self_after sessions final_content tool_calls
       initial_locals truthy].
  split; [reflexivity|]. split; [reflexivity|]. split; [reflexivity|].
  split; [apply add_message_new_session|]. reflexivity.
Qed.

(** X8. Over a whole run, what [run] publishes itself comes in the order
    of the messages it takes from the bus before [stop], at most one
    message for each of them, and nothing published earlier is changed.
    When none of those messages is a system announcement, [run] publishes
    exactly one message for each, in their order, each to the channel and
    chat of its message. (What the message tool puts on the bus in between
    is not part of [published].) *)
Theorem run_loop_answers_in_order
    (evs : list bus_event) (self : AgentLoop)
    (published : list OutboundMessage) :
  exists self' added,
    run_loop evs self published = Some (self', published ++ added)
    /\ length added <= length (dequeued_messages evs)
    /\ (forallb (fun msg => negb (String.eqb (channel msg) "system"))
          (dequeued_messages evs) = true ->
        map (fun m => (out_channel m, out_chat_id m)) added
        = map (fun msg => (channel msg, chat_id msg)) (dequeued_messages evs)).
Proof.
  revert self published.
  induction evs as [|[d|] evs IH]; intros self published;
    cbn [run_loop dequeued_messages].
  - exists self, []. rewrite app_nil_r. repeat split. cbn. lia.
  - destruct (run_iteration_shape d self published)
      as (self1 & published1 & Hrun & Hd).
    rewrite Hrun.
    destruct (IH self1 published1) as (self' & added & Hrest & Hlen & Hord).
    destruct d as [|msg].
    + destruct Hd as [-> ->]. exists self', added. repeat split; assumption.
    + cbn [length forallb map].
      destruct (String.eqb (channel msg) "system") eqn:Ech.
      * destruct Hd as [-> [-> | [m ->]]].
        -- exists self', added. split; [exact Hrest|]. split; [lia|].
           discriminate.
        -- exists self', (m :: added). rewrite <- app_assoc in Hrest.
           split; [exact Hrest|]. split; [cbn; lia|]. discriminate.
      * destruct Hd as (m & -> & Hc & Hi).
        exists self', (m :: added). rewrite <- app_assoc in Hrest.
        split; [exact Hrest|]. split; [cbn; lia|].
        cbn [negb andb]. intros Hall. cbn [map]. rewrite Hc, Hi.
        f_equal. apply Hord, Hall.
  - exists self, []. rewrite app_nil_r. repeat split. cbn. lia.
Qed.

End RunLoop.

Section RunLoopExamples.
Import Loop Scripted.

Lemma zero_budget_answers_with_apology_witness :
  exists p e,
    _process_message (agent 0 [Replies (Some "never asked") []]) (inbound "hi")
      = Some p
    /\ model_calls p = 0
    /\ returned p = Raise e
    /\ exn_cls e = UnboundLocalError.
Proof.
  destruct (zero_budget_answers_with_apology
              (agent 0 [Replies (Some "never asked") []]) (inbound "hi") [])
    as (p & e & Hp & Hcalls & Hret & Hcls & _).
  - cbn. lia.
  - discriminate.
  - exists p, e. repeat split; assumption.
Defined.

Lemma provider_failure_answered_and_saved_witness :
  exists p,
    _process_message (agent 10 [Fails (PyExn OtherException "rate limit")])
      (inbound "hi") = Some p
    /\ model_calls p = 1
    /\ world (self_after p) = []
    /\ returned p =
         Ok (Some {| out_channel := "cli"; out_chat_id := "direct";
                     out_content := Some "Error calling LLM: rate limit";
                     out_media := [] |})
    /\ sessions (self_after p) =
         <[ "cli:direct" :=
              [ user_turn (inbound "hi");
                assistant_turn "Error calling LLM: rate limit" ] ]> ∅.
Proof.
  apply (provider_failure_answered_and_saved
           (agent 10 [Fails (PyExn OtherException "rate limit")]) (inbound "hi")
           [] (PyExn OtherException "rate limit")).
  - discriminate.
  - reflexivity.
  - reflexivity.
Defined.

Lemma session_gets_user_turn_and_final_answer_witness :
  exists p l,
    _process_message (agent 3 always_tools) (inbound "list the files") = Some p
    /\ locals_after p = Some l
    /\ sessions (self_after p) !! "cli:direct"
       = Some (user_turn (inbound "list the files")
                 :: match final_content l with
                    | Some text =>
                        if str_truthy text then [assistant_turn text] else []
                    | None => []
                    end).
Proof.
  destruct (session_gets_user_turn_and_final_answer
              (agent 3 always_tools) (inbound "list the files"))
    as (p & l & Hp & Hl & _ & _ & Hs).
  - discriminate.
  - exists p, l. repeat split; assumption.
Defined.

End RunLoopExamples.

(** ** The relay: answers, timeouts and frames that are dropped *)

Section RelayExtras.
Import Browser.
Context `{PyRepr}.

Lemma handle_response_result data (r : BrowserRelay) idv c fut v :
  data !! "id" = Some idv ->
  int_key idv = Ok (Some c) ->
  pending_commands r !! c = Some fut ->
  data !! "error" = None ->
  data !! "result" = Some v ->
  fst (handle_data (JObj data) r)
  = resolve fut (FResult v)
      (with_pending_commands (delete c (pending_commands r)) r).
Proof.
  intros Hid Hkey Hc Herr Hres. unfold handle_data.
  cbn [py_in py_getitem py_get]. rewrite Hid, Hres, Herr.
  rewrite !bool_decide_eq_true_2 by eauto.
  rewrite bool_decide_eq_false_2 by (intros [x Hx]; discriminate).
  rewrite Hkey, Hc. reflexivity.
Qed.

Lemma handle_response_error data (r : BrowserRelay) idv c fut err :
  data !! "id" = Some idv ->
  int_key idv = Ok (Some c) ->
  pending_commands r !! c = Some fut ->
  data !! "error" = Some err ->
  fst (handle_data (JObj data) r)
  = resolve fut (FException (PyExn OtherException (py_str err)))
      (with_pending_commands (delete c (pending_commands r)) r).
Proof.
  intros Hid Hkey Hc Herr. unfold handle_data.
  cbn [py_in py_getitem py_get]. rewrite Hid, Herr.
  rewrite !bool_decide_eq_true_2 by eauto.
  destruct (bool_decide (is_Some (data !! "result")));
    rewrite Hkey, Hc; reflexivity.
Qed.

Lemma handle_data_not_a_dict v (r : BrowserRelay) :
  (forall m, v <> JObj m) -> fst (handle_data v r) = r.
Proof.
  intros Hv. unfold handle_data.
  destruct v as [| b | n | str | l | m]; cbn [py_in py_getitem py_get];
    repeat case_match; simplify_eq; try reflexivity.
  all: exfalso; eapply Hv; reflexivity.
Qed.

Lemma handle_data_without_id data (r : BrowserRelay) :
  data !! "id" = None ->
  fst (handle_data (JObj data) r) = r
  \/ exists ws, fst (handle_data (JObj data) r) = with_send_call ws pong r.
Proof.
  intros Hid. unfold handle_data. cbn [py_in py_get]. rewrite Hid.
  rewrite bool_decide_eq_false_2 by (intros [x Hx]; discriminate).
  destruct (eq_str "ping" (default JNull (data !! "method")));
    [|left; reflexivity].
  destruct (extension_ws r) as [ws|]; [right; eauto|left; reflexivity].
Qed.

(** An event that is no response leaves the table, the futures and the id
    counter alone. *)
Lemma quiet_step ev (r : BrowserRelay) :
  no_response ev = true ->
  pending_commands (peer_step r ev) = pending_commands r
  /\ futures (peer_step r ev) = futures r
  /\ command_id (peer_step r ev) = command_id r.
Proof.
  destruct ev as [ws path|[v|]|ws]; cbn [no_response peer_step _handle_message].
  - intros _. unfold connection_opened. destruct (negb _); repeat split.
  - intros Hq. destruct v as [| b | n | str | l | data];
      try (rewrite handle_data_not_a_dict by discriminate; repeat split).
    apply negb_true_iff, bool_decide_eq_false in Hq.
    assert (Hid : data !! "id" = None).
    { destruct (data !! "id") eqn:E; [|reflexivity]. exfalso. apply Hq. eauto. }
    destruct (handle_data_without_id data r Hid) as [-> | [ws ->]];
      repeat split.
  - intros _. repeat split.
  - intros _. unfold connection_closed. case_bool_decide; repeat split.
Qed.

Lemma await_quiet pre c (r : BrowserRelay) :
  forallb no_response pre = true ->
  futures r !! c = Some FPending ->
  exists r',
    (forall evs, await_future c (pre ++ evs) r = await_future c evs r')
    /\ pending_commands r' = pending_commands r
    /\ futures r' = futures r
    /\ command_id r' = command_id r.
Proof.
  revert r. induction pre as [|ev pre IH]; intros r Hq Hc.
  - exists r. repeat split.
  - cbn [forallb] in Hq. apply andb_true_iff in Hq as [Hev Hq].
    destruct (quiet_step ev r Hev) as (Hp & Hf & Hid).
    destruct (IH (peer_step r ev) Hq) as (r' & Hw & Hp' & Hf' & Hid');
      [rewrite Hf; exact Hc|].
    exists r'. split; [|split; [|split]]; try congruence.
    intros evs. cbn [app await_future]. rewrite Hc. apply Hw.
Qed.

Lemma await_future_done c evs (r : BrowserRelay) :
  (forall v, futures r !! c = Some (FResult v) ->
             await_future c evs r = (r, Some (Ok v)))
  /\ (forall e, futures r !! c = Some (FException e) ->
                await_future c evs r = (r, Some (Raise e))).
Proof.
  split; intros x Hx; destruct evs; cbn [await_future]; rewrite Hx; reflexivity.
Qed.

(** A frame that settles the future of a sent command ends the wait with
    what the future holds. *)
Lemma send_command_settled
    (self : BrowserRelay) ws method params env pre data rest outcome res :
  extension_ws self = Some ws ->
  send_raises env = None ->
  arrivals env = pre ++ Delivers (Some (JObj data)) :: rest ->
  forallb no_response pre = true ->
  (forall r, pending_commands r !! (command_id self + 1)%Z
             = Some (command_id self + 1)%Z ->
     fst (handle_data (JObj data) r)
     = resolve (command_id self + 1) outcome
         (with_pending_commands
            (delete (command_id self + 1)%Z (pending_commands r)) r)) ->
  (exists v, outcome = FResult v /\ res = Ok v)
  \/ (exists e, outcome = FException e /\ res = Raise e) ->
  exists self',
    send_command method params env self = (self', res)
    /\ command_id self' = (command_id self + 1)%Z
    /\ pending_commands self'
       = delete (command_id self + 1)%Z (pending_commands self)
    /\ futures self' = <[(command_id self + 1)%Z := outcome]> (futures self).
Proof.
  intros Hws Hraise Harr Hpre Hhandle Hres.
  unfold send_command, send_command_begin. rewrite Hws, Hraise, Harr.
  set (c := (command_id self + 1)%Z) in *.
  set (self2 := with_send_call ws _ _).
  destruct (await_quiet pre c self2 Hpre) as (r' & Hw & Hp & Hf & Hid);
    [apply lookup_insert_eq|].
  rewrite Hw. cbn [await_future].
  assert (Hc : futures r' !! c = Some FPending)
    by (rewrite Hf; apply lookup_insert_eq).
  rewrite Hc. cbn [peer_step _handle_message].
  assert (Hpc : pending_commands r' !! c = Some c)
    by (rewrite Hp; apply lookup_insert_eq).
  rewrite (Hhandle r' Hpc).
  set (r1 := with_pending_commands (delete c (pending_commands r')) r').
  assert (Hf1 : futures (resolve c outcome r1) = <[c := outcome]> (futures r')).
  { rewrite resolve_futures. change (futures r1) with (futures r').
    rewrite Hc. reflexivity. }
  assert (Hfields : command_id (resolve c outcome r1) = c
                    /\ pending_commands (resolve c outcome r1)
                       = delete c (pending_commands self)
                    /\ futures (resolve c outcome r1)
                       = <[c := outcome]> (futures self)).
  { destruct (resolve_fields c outcome r1) as (_ & _ & _ & -> & -> & _).
    split; [exact Hid|]. split.
    - change (pending_commands r1) with (delete c (pending_commands r')).
      rewrite Hp. apply delete_insert_eq.
    - rewrite Hf1, Hf. apply insert_insert_eq. }
  exists (resolve c outcome r1).
  split; [|exact Hfields].
  destruct (await_future_done c rest (resolve c outcome r1)) as [Hok Hexn].
  destruct Hres as [(v & -> & ->)|(e & -> & ->)].
  - rewrite (Hok v); [reflexivity|]. rewrite Hf1. apply lookup_insert_eq.
  - rewrite (Hexn e); [reflexivity|]. rewrite Hf1. apply lookup_insert_eq.
Qed.

(** X9. Round trip of a command. When the peer takes the frame and, after
    any frames that are no responses, answers with the id of the command, a
    [result] and no [error], [send_command] returns that result; the id
    counter has gone up by one, the entry made for the command is gone
    again, and the future of the command holds the result. *)
Theorem answered_command_returns_result
    (self : BrowserRelay) ws method params env pre data rest v :
  extension_ws self = Some ws ->
  send_raises env = None ->
  arrivals env = pre ++ Delivers (Some (JObj data)) :: rest ->
  forallb no_response pre = true ->
  data !! "id" = Some (JInt (command_id self + 1)) ->
  data !! "result" = Some v ->
  data !! "error" = None ->
  exists self',
    send_command method params env self = (self', Ok v)
    /\ command_id self' = (command_id self + 1)%Z
    /\ pending_commands self'
       = delete (command_id self + 1)%Z (pending_commands self)
    /\ futures self' = <[(command_id self + 1)%Z := FResult v]> (futures self).
Proof.
  intros Hws Hraise Harr Hpre Hid Hres Herr.
  apply (send_command_settled self ws method params env pre data rest
           (FResult v) (Ok v) Hws Hraise Harr Hpre); [|left; eauto].
  intros r Hr.
  exact (handle_response_result data r _ _ _ v Hid eq_refl Hr Herr Hres).
Qed.

(** X10. An answer with an [error] rejects the command, whether or not it
    has a [result] as well: [send_command] raises an exception whose text
    is [str(error)], and the entry is gone. *)
Theorem error_answer_raises
    (self : BrowserRelay) ws method params env pre data rest err :
  extension_ws self = Some ws ->
  send_raises env = None ->
  arrivals env = pre ++ Delivers (Some (JObj data)) :: rest ->
  forallb no_response pre = true ->
  data !! "id" = Some (JInt (command_id self + 1)) ->
  data !! "error" = Some err ->
  exists self',
    send_command method params env self
      = (self', Raise (PyExn OtherException (py_str err)))
    /\ command_id self' = (command_id self + 1)%Z
    /\ pending_commands self'
       = delete (command_id self + 1)%Z (pending_commands self).
Proof.
  intros Hws Hraise Harr Hpre Hid Herr.
  destruct (send_command_settled self ws method params env pre data rest
              (FException (PyExn OtherException (py_str err)))
              (Raise (PyExn OtherException (py_str err)))
              Hws Hraise Harr Hpre) as (self' & Hsend & Hc & Hp & _).
  - intros r Hr.
    exact (handle_response_error data r _ _ _ err Hid eq_refl Hr Herr).
  - right. eauto.
  - exists self'. repeat split; assumption.
Qed.

(** X11. A command that gets no response times out: when the peer takes
    the frame and then sends only pings, frames that do not decode or are
    no dicts, and connects or disconnects, [send_command] raises the
    timeout error, and afterwards the entry of the command is gone,
    whatever arrived between the cancellation and the [except] clause. *)
Theorem unanswered_command_times_out
    (self : BrowserRelay) ws method params env :
  extension_ws self = Some ws ->
  send_raises env = None ->
  forallb no_response (arrivals env) = true ->
  snd (send_command method params env self)
    = Raise (PyExn TimeoutError "Browser command timed out")
  /\ pending_commands (fst (send_command method params env self))
       !! (command_id self + 1)%Z = None.
Proof.
  intros Hws Hraise Hquiet.
  unfold send_command, send_command_begin. rewrite Hws, Hraise.
  set (c := (command_id self + 1)%Z).
  set (self2 := with_send_call ws _ _).
  destruct (await_quiet (arrivals env) c self2 Hquiet) as (r' & Hw & _ & Hf & _);
    [apply lookup_insert_eq|].
  specialize (Hw []). rewrite app_nil_r in Hw. rewrite Hw.
  cbn [await_future].
  assert (Hc : futures r' !! c = Some FPending)
    by (rewrite Hf; apply lookup_insert_eq).
  rewrite Hc. split; [reflexivity|]. apply on_timeout_removes.
Qed.

End RelayExtras.

(** ** The relay: the table after a call, and frames that change nothing *)

Section RelayTable.
Import Browser.
Context `{PyRepr}.

(** While the entry of a command is in the table its future is pending,
    as long as every entry maps an id to the future of that id. *)
Lemma entry_pending_step c ev (r : BrowserRelay) :
  (forall k fut, pending_commands r !! k = Some fut -> fut = k) ->
  (is_Some (pending_commands r !! c) -> futures r !! c = Some FPending) ->
  (forall k fut, pending_commands (peer_step r ev) !! k = Some fut -> fut = k)
  /\ (is_Some (pending_commands (peer_step r ev) !! c) ->
      futures (peer_step r ev) !! c = Some FPending).
Proof.
  intros Hkeys Hc.
  destruct ev as [ws path|[v|]|ws]; cbn [peer_step _handle_message].
  - unfold connection_opened. destruct (negb _); split; assumption.
  - destruct (handle_data_shape v r)
      as [-> | [(ws & _ & ->) | (k0 & fut & o & Hk0 & _ & ->)]];
      [split; assumption | split; assumption |].
    pose proof (Hkeys k0 fut Hk0) as ->.
    set (r1 := with_pending_commands (delete k0 (pending_commands r)) r).
    destruct (resolve_fields k0 o r1) as (_ & _ & _ & _ & Hp & _).
    rewrite Hp. change (pending_commands r1) with (delete k0 (pending_commands r)).
    split.
    + intros k fut Hk. apply lookup_delete_Some in Hk as [_ Hk].
      exact (Hkeys k fut Hk).
    + intros [fut Hk]. apply lookup_delete_Some in Hk as [Hne Hk].
      rewrite resolve_other by congruence. apply Hc. eauto.
  - split; assumption.
  - unfold connection_closed. case_bool_decide; split; assumption.
Qed.

Lemma await_future_entry c evs (r r' : BrowserRelay) o :
  (forall k fut, pending_commands r !! k = Some fut -> fut = k) ->
  (is_Some (pending_commands r !! c) -> futures r !! c = Some FPending) ->
  await_future c evs r = (r', o) ->
  forall res, o = Some res -> pending_commands r' !! c = None.
Proof.
  assert (Hgone : forall (r : BrowserRelay) f,
            (is_Some (pending_commands r !! c) -> futures r !! c = Some FPending) ->
            futures r !! c = Some f -> f <> FPending ->
            pending_commands r !! c = None).
  { intros r0 f Hc0 Hf Hne. apply eq_None_not_Some. intros Hs.
    specialize (Hc0 Hs). congruence. }
  revert r. induction evs as [|ev evs IH]; intros r Hkeys Hc; cbn [await_future].
  - case_eq (futures r !! c); [intros [] Ef|intros Ef];
      intros [= <- <-] res Hres; try discriminate Hres;
      apply (Hgone r _ Hc Ef); discriminate.
  - case_eq (futures r !! c); [intros [] Ef|intros Ef];
      try (destruct (entry_pending_step c ev r Hkeys Hc) as [Hkeys' Hc'];
           apply IH; assumption);
      intros [= <- <-] res _; apply (Hgone r _ Hc Ef); discriminate.
Qed.

(** X12. However the call ends, a command whose frame was sent leaves no
    entry behind: after [send_command], answered, rejected or timed out,
    whatever else the peer did in between, the id it used is not in the
    table (given that the table maps every id to the future of that id, as
    [send_command] itself makes it). *)
Theorem sent_command_leaves_no_entry
    (self : BrowserRelay) ws method params env :
  (forall k fut, pending_commands self !! k = Some fut -> fut = k) ->
  extension_ws self = Some ws ->
  send_raises env = None ->
  pending_commands (fst (send_command method params env self))
    !! (command_id self + 1)%Z = None.
Proof.
  intros Hkeys Hws Hraise.
  unfold send_command, send_command_begin. rewrite Hws, Hraise.
  set (c := (command_id self + 1)%Z).
  set (self2 := with_send_call ws _ _).
  destruct (await_future c (arrivals env) self2) as [r' [res|]] eqn:Ew.
  - cbn [fst]. eapply (await_future_entry c _ self2 r'); [| |exact Ew|reflexivity].
    + intros k fut. cbn. intros Hk.
      apply lookup_insert_Some in Hk as [[<- <-]|[_ Hk]]; [reflexivity|].
      exact (Hkeys k fut Hk).
    + intros _. cbn. apply lookup_insert_eq.
  - apply on_timeout_removes.
Qed.

(** X13. Frames the relay drops without changing anything: a frame that is
    not JSON; a JSON value that is not a dict; and a response (a dict with
    an [id] and a [result] or [error]) whose id is not in the table,
    because it was never handed out, was answered before or has timed out,
    or is no number at all. Such a response is not taken for a ping
    either. *)
Theorem unmatched_frames_are_dropped (self : BrowserRelay) :
  _handle_message None self = self
  /\ (forall v, (forall m, v <> JObj m) -> _handle_message (Some v) self = self)
  /\ (forall data idv,
        data !! "id" = Some idv ->
        is_Some (data !! "result") \/ is_Some (data !! "error") ->
        (forall c, int_key idv = Ok (Some c) ->
                   pending_commands self !! c = None) ->
        _handle_message (Some (JObj data)) self = self).
Proof.
  split; [reflexivity|]. split.
  - intros v Hv. cbn [_handle_message]. apply handle_data_not_a_dict, Hv.
  - intros data idv Hid Hres Hnone. cbn [_handle_message].
    unfold handle_data. cbn [py_in py_getitem py_get]. rewrite Hid.
    rewrite (bool_decide_eq_true_2 (is_Some (Some idv))) by eauto.
    assert (Hgate :
      (if bool_decide (is_Some (data !! "result"))
       then Ok true
       else Ok (A := bool) (bool_decide (is_Some (data !! "error")))) = Ok true).
    { destruct Hres as [Hr|He].
      - rewrite bool_decide_eq_true_2 by exact Hr. reflexivity.
      - case_bool_decide; [reflexivity|].
        rewrite bool_decide_eq_true_2 by exact He. reflexivity. }
    cbv iota. rewrite Hgate.
    destruct (int_key idv) as [[c|]|e] eqn:Ek; try reflexivity.
    rewrite (Hnone c eq_refl). reflexivity.
Qed.

(** X14. Handling a frame never hands out an id, never adds an entry to
    the table, never creates a future and never changes the peer or the
    listening state; the only thing it may send is one pong to the peer. *)
Theorem handle_message_never_adds message (self : BrowserRelay) :
  let self' := _handle_message message self in
  command_id self' = command_id self
  /\ extension_ws self' = extension_ws self
  /\ server self' = server self
  /\ _running self' = _running self
  /\ (forall c fut, pending_commands self' !! c = Some fut ->
                    pending_commands self !! c = Some fut)
  /\ (forall c, is_Some (futures self' !! c) <-> is_Some (futures self !! c))
  /\ (send_calls self' = send_calls self
      \/ exists ws, extension_ws self = Some ws
                    /\ send_calls self' = send_calls self ++ [(ws, pong)]).
Proof.
  destruct message as [data|]; cbn [_handle_message].
  2: { repeat split; auto. }
  destruct (handle_data_shape data self)
    as [-> | [(ws & Hws & ->) | (c0 & fut & o & _ & _ & ->)]].
  - repeat split; auto.
  - repeat split; eauto.
  - set (r1 := with_pending_commands (delete c0 (pending_commands self)) self).
    destruct (resolve_fields fut o r1) as (_ & -> & -> & -> & -> & -> & ->).
    split; [reflexivity|]. split; [reflexivity|]. split; [reflexivity|].
    split; [reflexivity|]. split; [|split].
    + intros c f Hc. unfold r1 in Hc.
      cbn [pending_commands with_pending_commands] in Hc.
      apply lookup_delete_Some in Hc as [_ Hc]. exact Hc.
    + intros c. exact (resolve_dom fut o r1 c).
    + left. reflexivity.
Qed.

(** X15. A connection on another path than [/extension] changes nothing. A
    connection on that path becomes the peer in place of the one before,
    and the table is kept. When the connection it replaced closes
    afterwards, the new peer stays; when the peer itself closes, the relay
    has no peer. *)
Theorem reconnect_replaces_peer (ws1 ws2 : nat) (self : BrowserRelay) :
  ws1 <> ws2 ->
  let r := connection_opened ws2 RELAY_PATH
             (connection_opened ws1 RELAY_PATH self) in
  extension_ws r = Some ws2
  /\ pending_commands r = pending_commands self
  /\ futures r = futures self
  /\ connection_closed ws1 r = r
  /\ extension_ws (connection_closed ws2 r) = None
  /\ (forall ws path, path <> RELAY_PATH -> connection_opened ws path self = self).
Proof.
  intros Hne r. subst r. unfold connection_opened.
  change (negb (String.eqb RELAY_PATH RELAY_PATH)) with false. cbv iota.
  split; [reflexivity|]. split; [reflexivity|]. split; [reflexivity|].
  split; [|split].
  - unfold connection_closed. cbn [extension_ws with_extension_ws].
    rewrite bool_decide_eq_false_2 by congruence. reflexivity.
  - unfold connection_closed. cbn [extension_ws with_extension_ws].
    rewrite bool_decide_eq_true_2 by reflexivity. reflexivity.
  - intros ws path Hpath. apply String.eqb_neq in Hpath. rewrite Hpath.
    reflexivity.
Qed.


End RelayTable.

(** ** The relay under the scheduler: ids and futures *)

Section SchedulerExtras.
Import Browser.
Context `{PyRepr}.

Lemma step_command_id s ev s' :
  step s ev = Some s' ->
  (command_id (relay s) <= command_id (relay s'))%Z.
Proof.
  destruct s as [r w]. intros Hstep. cbn [relay waiters] in *.
  destruct ev as [bind_ok| |[ws path|[data|]|ws]|method params raises|d|d|d];
    cbn [step relay waiters peer_step _handle_message] in Hstep.
  - injection Hstep as <-. cbn [relay].
    unfold start. destruct (_running r), bind_ok; reflexivity.
  - injection Hstep as <-. reflexivity.
  - destruct (server r); [|discriminate]. injection Hstep as <-. cbn [relay].
    unfold connection_opened. destruct (negb _); reflexivity.
  - injection Hstep as <-. cbn [relay].
    destruct (handle_data_shape data r)
      as [-> | [(ws & _ & ->) | (c0 & fut & o & _ & _ & ->)]];
      [reflexivity | reflexivity |].
    destruct (resolve_fields fut o
                (with_pending_commands (delete c0 (pending_commands r)) r))
      as (_ & _ & _ & -> & _).
    reflexivity.
  - injection Hstep as <-. reflexivity.
  - injection Hstep as <-. cbn [relay].
    unfold connection_closed. case_bool_decide; reflexivity.
  - unfold send_command_begin in Hstep.
    destruct (extension_ws r) as [ws|]; [|injection Hstep as <-; reflexivity].
    destruct raises; injection Hstep as <-; cbn; lia.
  - destruct (w !! d) as [[]|]; try discriminate.
    destruct (futures r !! d) as [[]|]; try discriminate;
      injection Hstep as <-; reflexivity.
  - destruct (w !! d) as [[]|]; try discriminate. injection Hstep as <-.
    cbn [relay]. unfold wait_for_expired.
    destruct (resolve_fields d FCancelled r) as (_ & _ & _ & -> & _).
    reflexivity.
  - destruct (w !! d) as [[]|]; try discriminate. injection Hstep as <-.
    cbn [relay]. destruct (pending_commands r !! d); reflexivity.
Qed.

Lemma run_command_id evs s s' :
  run s evs = Some s' ->
  (command_id (relay s) <= command_id (relay s'))%Z.
Proof.
  revert s. induction evs as [|ev evs IH]; intros s; cbn [run].
  - intros [= <-]. reflexivity.
  - destruct (step s ev) as [s1|] eqn:E; [|discriminate]. intros Hrun.
    pose proof (step_command_id s ev s1 E). specialize (IH s1 Hrun). lia.
Qed.

(** X17. The id counter never goes down, and in every state the scheduler
    reaches a command gets the next id, which is larger than every id in
    the table and has neither an entry nor a future yet: no two commands
    of a relay share an id. *)
Theorem command_ids_are_fresh evs s :
  run initial evs = Some s ->
  (0 <= command_id (relay s))%Z
  /\ (forall c, is_Some (pending_commands (relay s) !! c) ->
                (c <= command_id (relay s))%Z)
  /\ (forall evs' s', run s evs' = Some s' ->
                      (command_id (relay s) <= command_id (relay s'))%Z)
  /\ (forall method params raises r' c,
        send_command_begin method params raises (relay s) = (r', Ok c) ->
        c = (command_id (relay s) + 1)%Z
        /\ command_id r' = c
        /\ pending_commands (relay s) !! c = None
        /\ futures (relay s) !! c = None
        /\ pending_commands r' !! c = Some c).
Proof.
  intros Hrun.
  pose proof (consistent_run evs initial s consistent_initial Hrun)
    as (Hdom & Htable & _).
  assert (Hkeys : forall c, is_Some (pending_commands (relay s) !! c) ->
                            (c <= command_id (relay s))%Z).
  { intros c [fut Hc]. apply Hdom.
    destruct (Htable c fut Hc) as [_ [Hx|[Hx _]]]; rewrite Hx; eauto. }
  split; [exact (run_command_id evs initial s Hrun)|].
  split; [exact Hkeys|]. split; [intros evs' s'; apply run_command_id|].
  intros method params raises r' c. unfold send_command_begin.
  destruct (extension_ws (relay s)) as [ws|]; [|discriminate].
  intros Hbegin.
  assert (Hc : c = (command_id (relay s) + 1)%Z /\ command_id r' = c
               /\ pending_commands r' !! c = Some c).
  { destruct raises; [discriminate|]. injection Hbegin as <- <-.
    cbn. rewrite lookup_insert_eq. repeat split. }
  destruct Hc as (-> & Hid & Hp).
  split; [reflexivity|]. split; [exact Hid|].
  split; [|split; [|exact Hp]].
  - apply eq_None_not_Some. intros Hs. apply Hkeys in Hs. lia.
  - apply eq_None_not_Some. intros Hs. apply Hdom in Hs. lia.
Qed.

(** X18. In every state the scheduler reaches, each entry of the table
    maps an id to the future made for that id, and that future is pending,
    or was cancelled by a deadline whose [except] clause has not run yet;
    a call parked on a pending future has its entry; and futures exist
    only for ids that were handed out. *)
Theorem reachable_states_are_consistent evs s :
  run initial evs = Some s -> consistent s.
Proof. apply consistent_run, consistent_initial. Qed.

(** X19. A future that is done stays as it is, whatever happens afterwards:
    an answer after the deadline does not replace the cancellation, and a
    deadline or a second answer after an answer does not replace the
    result. *)
Theorem settled_future_never_changes evs0 evs s s' c f :
  run initial evs0 = Some s ->
  run s evs = Some s' ->
  futures (relay s) !! c = Some f ->
  done f = true ->
  futures (relay s') !! c = Some f.
Proof.
  intros Hreach. pose proof (consistent_run _ _ _ consistent_initial Hreach) as Hs.
  clear Hreach. revert s Hs.
  induction evs as [|ev evs IH]; intros s Hs; cbn [run].
  - intros [= <-] Hc _. exact Hc.
  - destruct (step s ev) as [s1|] eqn:E; [|discriminate].
    intros Hrun Hc Hdone. apply (IH s1); try assumption.
    + eapply consistent_step; eassumption.
    + eapply future_settled_once; eassumption.
Qed.

End SchedulerExtras.

(** ** The browser tool: arguments, commands and the size of a result *)

Section ToolExtras.
Import Browser.
Context `{PyRepr}.

(** X20. An action whose required argument is missing, [None] or empty
    ([url] for navigate, [selector] for click and type, [script] for
    evaluate) returns its fixed error text and leaves the relay alone: no
    id is taken and nothing is sent. So does [type] when its [text] is
    missing or [None], and so does an action the tool does not know. The
    [text] of [type] is tested with [is None] only (line 231): with a
    selector and any text that is not [None], the empty text included,
    [type] sends its one command to the peer. *)
Theorem arguments_checked_before_relay kwargs env (self : BrowserRelay) :
  (py_truthy (kwargs_get kwargs "url" JNull) = false ->
   execute "navigate" kwargs env self
   = (self, Ok "Error: url is required for navigate"))
  /\ (py_truthy (kwargs_get kwargs "selector" JNull) = false ->
      execute "click" kwargs env self
      = (self, Ok "Error: selector is required for click"))
  /\ (py_truthy (kwargs_get kwargs "selector" JNull) = false
      \/ kwargs_get kwargs "text" JNull = JNull ->
      execute "type" kwargs env self
      = (self, Ok "Error: selector and text are required for type"))
  /\ (py_truthy (kwargs_get kwargs "script" JNull) = false ->
      execute "evaluate" kwargs env self
      = (self, Ok "Error: script is required for evaluate"))
  /\ (forall action,
        action <> "navigate" -> action <> "click" -> action <> "type" ->
        action <> "read" -> action <> "screenshot" -> action <> "evaluate" ->
        execute action kwargs env self
        = (self, Ok ("Unknown action: " +:+ action)))
  /\ (forall selector text ws,
        kwargs !! "selector" = Some selector -> py_truthy selector = true ->
        kwargs !! "text" = Some text -> text <> JNull ->
        extension_ws self = Some ws ->
        commands_sent (fst (execute "type" kwargs env self))
        = commands_sent self
            ++ [(ws, payload (command_id self + 1) "Runtime.evaluate"
                       (JObj {[ "expression" :=
                                  JStr (type_script selector text) ]}))]).
Proof.
  split; [|split; [|split; [|split; [|split]]]].
  - intros Hurl. unfold execute, execute_body.
    change (String.eqb "navigate" "navigate") with true. cbv iota.
    rewrite Hurl. reflexivity.
  - intros Hsel. unfold execute, execute_body.
    change (String.eqb "click" "navigate") with false.
    change (String.eqb "click" "click") with true. cbv iota.
    rewrite Hsel. reflexivity.
  - intros Hargs. unfold execute, execute_body.
    change (String.eqb "type" "navigate") with false.
    change (String.eqb "type" "click") with false.
    change (String.eqb "type" "type") with true. cbv iota.
    destruct Hargs as [Hsel|Htext].
    + rewrite Hsel. reflexivity.
    + rewrite Htext. rewrite orb_true_r. reflexivity.
  - intros Hscript. unfold execute, execute_body.
    change (String.eqb "evaluate" "navigate") with false.
    change (String.eqb "evaluate" "click") with false.
    change (String.eqb "evaluate" "type") with false.
    change (String.eqb "evaluate" "read") with false.
    change (String.eqb "evaluate" "screenshot") with false.
    change (String.eqb "evaluate" "evaluate") with true. cbv iota.
    rewrite Hscript. reflexivity.
  - intros action H1 H2 H3 H4 H5 H6. unfold execute, execute_body.
    apply String.eqb_neq in H1, H2, H3, H4, H5, H6.
    rewrite H1, H2, H3, H4, H5, H6. reflexivity.
  - intros selector text ws Hsel Htruthy Htext Hnone Hws.
    pose proof (send_command_one_envelope "Runtime.evaluate"
                  (JObj {[ "expression" := JStr (type_script selector text) ]})
                  (relay_env env) self ws Hws) as Hone.
    unfold execute, execute_body.
    change (String.eqb "type" "navigate") with false.
    change (String.eqb "type" "click") with false.
    change (String.eqb "type" "type") with true. cbv iota.
    unfold kwargs_get. rewrite Hsel, Htext. cbn [default from_option id].
    rewrite Htruthy. cbn [negb orb].
    destruct text; try congruence;
      (destruct (send_command _ _ _ _) as [self' [res|e]];
       [destruct (check_reply _ _ _)|]; exact Hone).
Qed.

(** The relay after [execute] is the relay before it, or the relay after
    the one [send_command] the action made. *)
Lemma execute_sends_at_most_once action kwargs env (self : BrowserRelay) :
  fst (execute action kwargs env self) = self
  \/ exists method params,
       fst (execute action kwargs env self)
       = fst (send_command method params (relay_env env) self).
Proof.
  unfold execute, execute_body.
  repeat match goal with
         | |- context [if ?b then _ else _] => destruct b
         | |- context [match send_command ?m ?p ?e ?s with _ => _ end] =>
             let Hs := fresh "Hs" in
             destruct (send_command m p e s) as [? [?|?]] eqn:Hs;
             cbn [fst]
         | |- context [match kwargs_get ?k ?n ?d with _ => _ end] =>
             destruct (kwargs_get k n d)
         | |- context [match check_reply ?a ?b ?c with _ => _ end] =>
             destruct (check_reply a b c)
         | |- context [match py_get ?a ?b ?c with _ => _ end] =>
             destruct (py_get a b c)
         | |- context [match screenshot_file ?e with _ => _ end] =>
             destruct (screenshot_file e)
         end;
    try (left; reflexivity).
  all: match goal with
       | Hs : send_command ?m ?p _ _ = _ |- _ =>
           right; exists m, p; rewrite Hs; reflexivity
       end.
Qed.

(** X21. Whatever the action, its arguments and the peer, one [execute]
    sends at most one command: the command envelopes among the calls of
    [send] are those from before, or those and one more with the next id;
    and the id counter goes up by at most one. *)
Theorem execute_sends_at_most_one_command
    action kwargs env (self : BrowserRelay) :
  (commands_sent (fst (execute action kwargs env self)) = commands_sent self
   \/ exists ws method params,
        extension_ws self = Some ws
        /\ commands_sent (fst (execute action kwargs env self))
           = commands_sent self
               ++ [(ws, payload (command_id self + 1) method params)])
  /\ (command_id self <= command_id (fst (execute action kwargs env self))
      <= command_id self + 1)%Z.
Proof.
  destruct (execute_sends_at_most_once action kwargs env self)
    as [-> | (method & params & ->)]; [split; [left; reflexivity|lia]|].
  destruct (extension_ws self) as [ws|] eqn:Ews.
  - split.
    + right. exists ws, method, params. split; [reflexivity|].
      apply send_command_one_envelope. exact Ews.
    + unfold send_command, send_command_begin. rewrite Ews.
      set (self2 := with_send_call ws _ _).
      assert (Hid : forall evs r, command_id (fold_left peer_step evs r)
                                  = command_id r).
      { induction evs as [|ev evs IH]; intros r; [reflexivity|].
        cbn [fold_left]. rewrite IH.
        destruct ev as [ws' path|[data|]|ws']; cbn [peer_step _handle_message].
        - unfold connection_opened. destruct (negb _); reflexivity.
        - destruct (handle_data_shape data r)
            as [-> | [(ws' & _ & ->) | (c0 & fut & o & _ & _ & ->)]];
            [reflexivity | reflexivity |].
          destruct (resolve_fields fut o
                      (with_pending_commands (delete c0 (pending_commands r)) r))
            as (_ & _ & _ & -> & _).
          reflexivity.
        - reflexivity.
        - unfold connection_closed. case_bool_decide; reflexivity. }
      assert (Hawait : forall c evs r,
                command_id (fst (await_future c evs r)) = command_id r).
      { intros c evs. induction evs as [|ev evs IH]; intros r;
          cbn [await_future].
        - repeat case_match; reflexivity.
        - repeat case_match; try reflexivity; rewrite IH;
            exact (Hid [ev] r). }
      destruct (send_raises (relay_env env)); [cbn; lia|].
      destruct (await_future _ _ self2) as [r' [res|]] eqn:Ew.
      * cbn [fst]. change r' with (fst (r', Some res)). rewrite <- Ew.
        rewrite Hawait. cbn. lia.
      * unfold on_timeout. cbn [fst].
        assert (Hr' : command_id r' = command_id self2).
        { change r' with (fst (r', @None (result json))). rewrite <- Ew.
          apply Hawait. }
        destruct (pending_commands _ !! _);
          cbn [command_id with_pending_commands]; rewrite Hid;
          unfold wait_for_expired;
          destruct (resolve_fields (command_id self + 1) FCancelled r')
            as (_ & _ & _ & -> & _);
          rewrite Hr'; cbn; lia.
  - rewrite send_command_not_connected by exact Ews.
    split; [left; reflexivity|cbn; lia].
Qed.

(** X22. What [read] returns is an error text or has at most 2000
    characters, whatever the selector and whatever the peer answers. *)
Theorem read_result_is_bounded kwargs env (self : BrowserRelay) :
  exists out,
    snd (execute "read" kwargs env self) = Ok out
    /\ (String.prefix "Error" out = true \/ String.length out <= 2000).
Proof.
  unfold execute, execute_body.
  change (String.eqb "read" "navigate") with false.
  change (String.eqb "read" "click") with false.
  change (String.eqb "read" "type") with false.
  change (String.eqb "read" "read") with true. cbv iota.
  destruct (send_command _ _ _ _) as [self' [res|e]].
  2: { eexists. split; [reflexivity|]. left. reflexivity. }
  unfold check_reply.
  destruct (has_exception_details res) as [[|]|e].
  - destruct (py_getitem res "exceptionDetails") as [details|e];
      eexists; (split; [reflexivity|]); left; reflexivity.
  - destruct (result_value res) as [text|e].
    + eexists. split; [reflexivity|]. right.
      rewrite slice_to_length. apply Nat.le_min_l.
    + eexists. split; [reflexivity|]. left. reflexivity.
  - eexists. split; [reflexivity|]. left. reflexivity.
Qed.

End ToolExtras.

(** ** The health check of the relay's server *)

Section HealthCheck.
Import Browser.

(** X23. When the handshake of the library fails with a [ValueError] whose
    text contains [got HEAD], the protocol answers on the spot: it writes
    the bytes [HTTP/1.1 200 OK], CR LF, [Content-Length: 0], CR LF, CR LF
    (spelled out below character by character where they do not print),
    closes the transport and hands on the path [/health-check]. The relay
    refuses that path and stays exactly as it was, so the probe never
    becomes the peer and an earlier peer is kept. Any other outcome of the
    handshake is passed on with the transport untouched, and only a
    handshake on the path [/extension] makes a peer. *)
Theorem head_probe_is_answered_and_never_peer
    (ws : nat) (t : Transport) (self : BrowserRelay) :
  (forall text,
      str_contains "got HEAD" text = true ->
      handshake (ValueErrorRaised text) t
      = ({| written :=
              written t
                ++ ["HTTP/1.1 200 OK"
                      +:+ String "013" (String "010"
                            ("Content-Length: 0"
                               +:+ String "013" (String "010"
                                     (String "013" (String "010"
                                        EmptyString)))))];
            closed := true |},
         Handshaken "/health-check")
      /\ connection_made ws (ValueErrorRaised text) t self
         = (fst (handshake (ValueErrorRaised text) t), self))
  /\ (forall outcome,
        (forall text, outcome = ValueErrorRaised text ->
                      str_contains "got HEAD" text = false) ->
        handshake outcome t = (t, outcome)
        /\ fst (connection_made ws outcome t self) = t)
  /\ (forall outcome,
        extension_ws (snd (connection_made ws outcome t self)) = Some ws ->
        extension_ws self = Some ws \/ outcome = Handshaken "/extension").
Proof.
  split; [|split].
  - intros text Hhead. unfold connection_made, handshake. rewrite Hhead.
    split; reflexivity.
  - intros outcome Hother.
    assert (Hh : handshake outcome t = (t, outcome)).
    { destruct outcome as [path|text|e]; cbn [handshake]; try reflexivity.
      rewrite (Hother text eq_refl). reflexivity. }
    split; [exact Hh|]. unfold connection_made. rewrite Hh.
    destruct outcome; reflexivity.
  - intros [path|text|e]; unfold connection_made, handshake; cbn [snd].
    + unfold connection_opened.
      destruct (String.eqb path RELAY_PATH) eqn:Ep; cbn [negb snd].
      * apply String.eqb_eq in Ep. subst. auto.
      * auto.
    + destruct (str_contains "got HEAD" text); cbn [snd]; auto.
    + auto.
Qed.

End HealthCheck.

(** ** The json_bot channel *)

Section JsonBotFacts.
Import Loop Browser JsonBot.

Lemma post_logged_posts p (h : Http) :
  posts (post_logged p h) = posts h ++ [p].
Proof. unfold post_logged, post. destruct (failures h) as [|[e|] rest]; reflexivity. Qed.

Lemma file_posts cfg chat items (h : Http) :
  posts (fold_left (fun h item => post_logged (file_post cfg chat item) h) items h)
  = posts h ++ map (file_post cfg chat) items.
Proof.
  revert h. induction items as [|item items IH]; intros h; cbn [fold_left map].
  - rewrite app_nil_r. reflexivity.
  - rewrite IH, post_logged_posts, <- app_assoc. reflexivity.
Qed.

(** X24. [send] posts the text of a message once, if it has one that is not
    empty, and then each media item once, in their order, all to the reply
    url and under the chat id of the message; a post that fails does not
    keep the later ones from being made. *)
Theorem send_posts_text_then_files
    (cfg : JsonBotConfig) (msg : OutboundMessage) (h : Http) :
  posts (send cfg msg h)
  = posts h
      ++ match out_content msg with
         | Some text =>
             if str_truthy text
             then [text_post cfg (out_chat_id msg) text]
             else []
         | None => []
         end
      ++ map (file_post cfg (out_chat_id msg)) (out_media msg).
Proof.
  unfold send. rewrite file_posts.
  destruct (out_content msg) as [text|]; [destruct (str_truthy text)|];
    rewrite ?post_logged_posts, <- ?app_assoc; reflexivity.
Qed.

(** X25. What [do_POST] answers. The status is 404 exactly for a path that
    does not start with [/webhook]; on such a path it is 200 with the body
    [OK] exactly when the request body decodes to a JSON dict, and 500
    otherwise. A message is handed on only with status 200, and only if
    [message] and [sender] are both there and not empty and a channel is
    registered: a dict without them is answered 200 and dropped. *)
Theorem webhook_statuses (has_channel : bool) (path : string)
    (decoded : result json) :
  let reply := do_POST has_channel path decoded in
  (status reply = 404%Z <-> startswith path "/webhook" = false)
  /\ (status reply = 200%Z <->
      startswith path "/webhook" = true /\ exists m, decoded = Ok (JObj m))
  /\ (status reply = 500%Z <->
      startswith path "/webhook" = true /\ forall m, decoded <> Ok (JObj m))
  /\ (status reply = 200%Z -> body reply = "OK")
  /\ (forall sender message msg_type,
        forwarded reply = Some (sender, message, msg_type) ->
        status reply = 200%Z
        /\ has_channel = true
        /\ py_truthy message = true /\ py_truthy sender = true
        /\ exists m, decoded = Ok (JObj m)
                     /\ m !! "message" = Some message
                     /\ m !! "sender" = Some sender
                     /\ msg_type = default (JStr "text") (m !! "type")).
Proof.
  intros reply. subst reply. unfold do_POST.
  destruct (startswith path "/webhook") eqn:Ep; cbn [status body forwarded].
  2: { repeat split; try discriminate; try tauto.
       - intros [? _]. discriminate. - intros [? _]. discriminate. }
  destruct decoded as [data|e].
  2: { cbn [status body forwarded]. repeat split; try discriminate; try tauto.
       - intros [_ [m Hm]]. discriminate. }
  destruct data as [| b | n | str | l | m]; unfold webhook_body;
    cbn [py_get status body forwarded];
    try (repeat split; try discriminate; try tauto;
         intros [_ [m Hm]]; discriminate).
  split; [split; discriminate|]. split; [split; eauto|].
  split; [split; [discriminate|]|].
  { intros [_ Hm]. exfalso. eapply Hm. reflexivity. }
  split; [reflexivity|].
  intros sender message msg_type.
  destruct (py_truthy (default (JStr "") (m !! "message"))) eqn:Emsg;
    [|discriminate].
  destruct (py_truthy (default (JStr "") (m !! "sender"))) eqn:Esnd;
    [|discriminate].
  destruct has_channel; [|discriminate].
  cbn [andb]. intros [= <- <- <-].
  split; [reflexivity|]. split; [reflexivity|]. split; [exact Emsg|].
  split; [exact Esnd|]. exists m. split; [reflexivity|].
  destruct (m !! "message") as [x|]; [|discriminate Emsg].
  destruct (m !! "sender") as [y|]; [|discriminate Esnd].
  repeat split.
Qed.

(** X26. From the webhook to the bus: [_handle_message] is called only for
    a sender that is allowed, with the sender as the chat id too; and what
    [do_POST] answers does not depend on whether the sender is allowed: a
    sender that is refused gets the same 200. *)
Theorem webhook_forwards_allowed_senders
    (is_allowed : json -> bool) (has_channel : bool) (path : string)
    (decoded : result json) :
  fst (webhook is_allowed has_channel path decoded)
    = do_POST has_channel path decoded
  /\ (forall call,
        snd (webhook is_allowed has_channel path decoded) = Some call ->
        is_allowed (call_sender_id call) = true
        /\ call_chat_id call = call_sender_id call
        /\ forwarded (do_POST has_channel path decoded)
           = Some (call_sender_id call, call_content call,
                   default JNull (call_metadata call !! "type")))
  /\ (forall sender message msg_type,
        forwarded (do_POST has_channel path decoded)
          = Some (sender, message, msg_type) ->
        is_allowed sender = false ->
        snd (webhook is_allowed has_channel path decoded) = None).
Proof.
  unfold webhook. cbn [fst snd]. split; [reflexivity|]. split.
  - intros call.
    destruct (forwarded (do_POST has_channel path decoded))
      as [[[sender message] msg_type]|]; [|discriminate].
    unfold handle_webhook_message.
    destruct (is_allowed sender) eqn:Ea; cbn [negb]; [|discriminate].
    intros [= <-]. cbn. rewrite lookup_singleton_eq. repeat split. exact Ea.
  - intros sender message msg_type -> Hno.
    unfold handle_webhook_message. rewrite Hno. reflexivity.
Qed.

Context `{Collaborators}.

(** X27. From the loop to the channel: when the turn budget is used up
    without a final answer, the outbound message the loop returns makes
    the channel post no text at all, only the media that were collected:
    the sender gets no written answer. *)
Theorem exhausted_budget_sends_no_text
    (cfg : JsonBotConfig) (h : Http) (self : AgentLoop) (msg : InboundMessage)
    p l out :
  channel msg <> "system" ->
  _process_message self msg = Some p ->
  locals_after p = Some l ->
  final_content l = None ->
  returned p = Ok (Some out) ->
  posts (send cfg out h)
  = posts h ++ map (file_post cfg (chat_id msg)) (media_from_tool_results l).
Proof.
  intros Hch. unfold _process_message.
  apply String.eqb_neq in Hch. rewrite Hch.
  destruct (agent_loop _ _ _ _ _) as [[[w' l'] calls]|] eqn:Hrun; [|discriminate].
  intros [= <-]. cbn [locals_after returned]. intros [= <-] Hfinal.
  pose proof (agent_loop_run _ _ _ _ _ _ _ _ Hrun) as (_ & _ & _ & Hnone).
  destruct (Hnone eq_refl Hfinal) as (_ & Htc & Hsame).
  rewrite Hfinal. cbn [truthy].
  destruct (Z.lt_ge_cases 0 (max_iterations self)) as [Hpos|Hzero].
  - destruct (Htc Hpos) as (tc & tcs & ->). intros [= <-].
    unfold send. cbn [out_content out_media out_chat_id]. apply file_posts.
  - rewrite (Hsame Hzero). cbn [tool_calls initial_locals]. discriminate.
Qed.

End JsonBotFacts.

(** ** The further properties on concrete inputs *)

Section ToolCallsExamples.
Import Loop Scripted Shots.

Lemma execute_tools_one_result_per_call_witness :
  exists (texts : list string) (worlds : list World),
    length texts = 2
    /\ length worlds = 3
    /\ [ToolResult "call_1" shot_text; ToolResult "call_2" "ok"]
       = [] ++ zip_with ToolResult (map tc_id [shot_call; file_call]) texts.
Proof.
  destruct (@execute_tools_one_result_per_call _ collaborators
              [] [shot_call; file_call] [] [] []
              [ToolResult "call_1" shot_text; ToolResult "call_2" "ok"]
              ["/workspace/screenshot_0.png"] eq_refl)
    as (texts & worlds & Hlen & Hworlds & _ & _ & Hmsgs & _).
  exists texts, worlds. repeat split; assumption.
Defined.

Lemma media_only_from_browser_calls_witness :
  exists added,
    ["/workspace/screenshot_0.png"] = [] ++ added
    /\ length added
       <= length (filter (fun tc => is_browser_call tc = true)
                    [shot_call; file_call]).
Proof.
  apply (@media_only_from_browser_calls _ collaborators
           [] [shot_call; file_call] [] [] []
           [ToolResult "call_1" shot_text; ToolResult "call_2" "ok"]
           ["/workspace/screenshot_0.png"]).
  reflexivity.
Defined.

End ToolCallsExamples.

Section RelayExamples.
Import Browser Peers Samples.

Lemma answered_command_returns_result_witness :
  exists self',
    send_command "Runtime.evaluate" (JObj {[ "expression" := JStr "1+1" ]})
      (answers_after_ping (JInt 2)) connected = (self', Ok (JInt 2))
    /\ command_id self' = 1%Z
    /\ pending_commands self' = delete 1%Z ∅
    /\ futures self' = <[1%Z := FResult (JInt 2)]> ∅.
Proof.
  apply (answered_command_returns_result connected 0 "Runtime.evaluate"
           (JObj {[ "expression" := JStr "1+1" ]}) (answers_after_ping (JInt 2))
           [Delivers (Some ping)] {[ "id" := JInt 1; "result" := JInt 2 ]} []
           (JInt 2)).
  - reflexivity.
  - reflexivity.
  - reflexivity.
  - reflexivity.
  - vm_compute. reflexivity.
  - vm_compute. reflexivity.
  - vm_compute. reflexivity.
Defined.

Lemma error_answer_raises_witness :
  exists self',
    send_command "Runtime.evaluate" (JObj {[ "expression" := JStr "x(" ]})
      (rejects (JStr "SyntaxError")) connected
      = (self', Raise (PyExn OtherException "SyntaxError"))
    /\ command_id self' = 1%Z
    /\ pending_commands self' = delete 1%Z ∅.
Proof.
  apply (error_answer_raises connected 0 "Runtime.evaluate"
           (JObj {[ "expression" := JStr "x(" ]}) (rejects (JStr "SyntaxError"))
           [] {[ "id" := JInt 1; "error" := JStr "SyntaxError";
                 "result" := JStr "ignored" ]} [] (JStr "SyntaxError")).
  - reflexivity.
  - reflexivity.
  - reflexivity.
  - reflexivity.
  - vm_compute. reflexivity.
  - vm_compute. reflexivity.
Defined.

Lemma unanswered_command_times_out_witness :
  snd (send_command "Page.navigate" (JObj (to_url "https://example.com"))
         (too_late JNull) connected)
    = Raise (PyExn TimeoutError "Browser command timed out")
  /\ pending_commands
       (fst (send_command "Page.navigate" (JObj (to_url "https://example.com"))
               (too_late JNull) connected)) !! 1%Z = None.
Proof.
  apply (unanswered_command_times_out connected 0 "Page.navigate"
           (JObj (to_url "https://example.com")) (too_late JNull)).
  - reflexivity.
  - reflexivity.
  - vm_compute. reflexivity.
Defined.

Lemma sent_command_leaves_no_entry_witness :
  pending_commands
    (fst (send_command "Page.navigate" (JObj (to_url "https://example.com"))
            (too_late JNull) connected)) !! 1%Z = None.
Proof.
  apply (sent_command_leaves_no_entry connected 0 "Page.navigate"
           (JObj (to_url "https://example.com")) (too_late JNull)).
  - intros k fut Hk. vm_compute in Hk. discriminate.
  - reflexivity.
  - reflexivity.
Defined.

Lemma reconnect_replaces_peer_witness :
  extension_ws (connection_opened 1 RELAY_PATH connected) = Some 1
  /\ connection_closed 0 (connection_opened 1 RELAY_PATH connected)
     = connection_opened 1 RELAY_PATH connected.
Proof.
  destruct (reconnect_replaces_peer 0 1 (start true new_relay))
    as (Hpeer & _ & _ & Hstale & _).
  - lia.
  - split; [exact Hpeer|exact Hstale].
Defined.

Lemma command_ids_are_fresh_witness :
  exists s,
    run initial answered_run = Some s
    /\ (0 <= command_id (relay s))%Z
    /\ forall method params raises r' c,
         send_command_begin method params raises (relay s) = (r', Ok c) ->
         c = (command_id (relay s) + 1)%Z
         /\ command_id r' = c
         /\ pending_commands (relay s) !! c = None
         /\ futures (relay s) !! c = None
         /\ pending_commands r' !! c = Some c.
Proof.
  destruct (run initial answered_run) as [s|] eqn:E;
    [|vm_compute in E; discriminate].
  exists s. split; [reflexivity|].
  destruct (command_ids_are_fresh answered_run s E) as (Hpos & _ & _ & Hfresh).
  split; assumption.
Defined.

Lemma reachable_states_are_consistent_witness :
  exists s, run initial (answered_run ++ afterwards) = Some s /\ consistent s.
Proof.
  eexists. split; [vm_compute; reflexivity|].
  apply (reachable_states_are_consistent (answered_run ++ afterwards)).
  vm_compute. reflexivity.
Defined.

Lemma settled_future_never_changes_witness :
  exists s s',
    run initial answered_run = Some s
    /\ run s afterwards = Some s'
    /\ futures (relay s') !! 1%Z = Some (FResult (JInt 2)).
Proof.
  eexists _, _. split; [vm_compute; reflexivity|].
  split; [vm_compute; reflexivity|].
  eapply (settled_future_never_changes answered_run afterwards).
  - vm_compute. reflexivity.
  - vm_compute. reflexivity.
  - vm_compute. reflexivity.
  - reflexivity.
Defined.

End RelayExamples.

Section ChannelExamples.
Import Loop Scripted Shots Samples JsonBot.

Lemma exhausted_budget_sends_no_text_witness :
  exists p l out,
    @_process_message _ collaborators (agent 2 always_shots) (inbound "look")
      = Some p
    /\ locals_after p = Some l
    /\ returned p = Ok (Some out)
    /\ posts (send bridge out no_posts)
       = [file_post bridge "direct" "/workspace/screenshot_0.png";
          file_post bridge "direct" "/workspace/screenshot_0.png"].
Proof.
  eexists _, _, _. split; [vm_compute; reflexivity|].
  split; [reflexivity|]. split; [reflexivity|].
  etransitivity.
  - eapply (@exhausted_budget_sends_no_text _ collaborators bridge no_posts
              (agent 2 always_shots) (inbound "look")).
    + discriminate.
    + vm_compute. reflexivity.
    + reflexivity.
    + reflexivity.
    + reflexivity.
  - reflexivity.
Defined.

End ChannelExamples.

Section ToolExamples.
Import Browser Peers.

(** A [type] without a text is refused before the relay is touched; a
    [type] with the empty text is sent. *)
Lemma arguments_checked_before_relay_witness :
  execute "type" {[ "selector" := JStr "#q" ]} (tool_env silent) connected
  = (connected, Ok "Error: selector and text are required for type")
  /\ commands_sent
       (fst (execute "type" {[ "selector" := JStr "#q"; "text" := JStr "" ]}
               (tool_env silent) connected))
     = [(0, payload 1 "Runtime.evaluate"
              (JObj {[ "expression" :=
                         JStr (type_script (JStr "#q") (JStr "")) ]}))].
Proof.
  split.
  - destruct (arguments_checked_before_relay
                {[ "selector" := JStr "#q" ]} (tool_env silent) connected)
      as (_ & _ & Htype & _).
    apply Htype. right. reflexivity.
  - destruct (arguments_checked_before_relay
                {[ "selector" := JStr "#q"; "text" := JStr "" ]}
                (tool_env silent) connected)
      as (_ & _ & _ & _ & _ & Hsend).
    apply (Hsend (JStr "#q") (JStr "") 0).
    + reflexivity.
    + reflexivity.
    + reflexivity.
    + discriminate.
    + reflexivity.
Defined.

(** A HEAD probe made while a peer is connected. *)
Lemma head_probe_is_answered_and_never_peer_witness :
  connection_made 1
    (ValueErrorRaised "unsupported HTTP method; expected GET; got HEAD")
    {| written := []; closed := false |} connected
  = ({| written :=
          ["HTTP/1.1 200 OK"
             +:+ String "013" (String "010"
                   ("Content-Length: 0"
                      +:+ String "013" (String "010"
                            (String "013" (String "010" EmptyString)))))];
        closed := true |},
     connected).
Proof.
  destruct (head_probe_is_answered_and_never_peer
              1 {| written := []; closed := false |} connected) as (Hhead & _).
  destruct (Hhead "unsupported HTTP method; expected GET; got HEAD" eq_refl)
    as [Hh Hc].
  rewrite Hc, Hh. reflexivity.
Defined.

End ToolExamples.
